(** * kmform: selection encoding, response store and form loading

    A shallow embedding of the logic of the kmform widget: the option
    buttons of KMChoicePromptView, the short and long text prompts, the
    response store of the form view with its submission, the form-respond
    call and the loading of the form definition in KMFormView. *)

From Stdlib Require Import String Ascii List Bool ZArith Lia Permutation.
Import ListNotations.
Local Open Scope string_scope.

(** ** JavaScript strings

    A JavaScript string is a finite sequence of code units; [string] plays
    that role here, one [ascii] per code unit.  Only the operations the
    components call are modelled: [+], [==], [String.prototype.includes]
    and [String.prototype.replace] with a string pattern. *)
Module JsString.

Definition chars (s : string) : list ascii := list_ascii_of_string s.

(** [startsWith s p]: [p] occurs in [s] at position 0. *)
Fixpoint startsWith (s p : string) {struct p} : bool :=
  match p with
  | EmptyString => true
  | String c p' =>
      match s with
      | EmptyString => false
      | String d s' => Ascii.eqb d c && startsWith s' p'
      end
  end.

Fixpoint drop (n : nat) (s : string) : string :=
  match n with
  | O => s
  | S n' => match s with EmptyString => EmptyString | String _ s' => drop n' s' end
  end.

(** [s.includes(p)]: [p] occurs in [s] at some position. *)
Fixpoint includes (s p : string) : bool :=
  startsWith s p ||
  match s with
  | EmptyString => false
  | String _ s' => includes s' p
  end.

(** [s.replace(p, r)] with a string pattern [p]: only the leftmost
    occurrence of [p] is replaced, and [s] is returned as it is when [p]
    does not occur.  [r] is inserted literally, which is what JavaScript
    does for a replacement without dollar patterns (the components only
    pass the empty string). *)
Fixpoint replace (s p r : string) : string :=
  if startsWith s p then r ++ drop (String.length p) s
  else match s with
       | EmptyString => EmptyString
       | String c s' => String c (replace s' p r)
       end.

End JsString.
Import JsString.

(** ** KMTypes: the JSON types of the backend *)
Module KMTypes.

Inductive QuestionType : Set :=
| multi | single | short | long | singleWithImage | multiWithImage.

Module Option.
Record t : Set := mk
  { id : string; title : string; subtitle : string; image : option string }.
End Option.

Module Question.
Record t : Set := mk
  { id : string;
    prompt : string;
    description : option string;
    type : QuestionType;
    options : list Option.t;
    required : bool;
    default : option string;
    placeholder : option string;
    formId : string }.
End Question.

Module TypeForm.
Record t : Set := mk
  { id : string;
    name : string;
    createdAt : string;
    stillAccepting : bool;
    questions : list Question.t }.
End TypeForm.

Module QuestionResponse.
Record t : Set := mk
  { id : option string; questionId : string; value : string }.
End QuestionResponse.

(** A JavaScript array is an object, and a field holds a reference to it.
    The form view owns one mutable array, the store [values]; this is the
    reference to it. *)
Inductive ArrayRef : Set := StoreRef.

Module FormResponse.
Record t : Set := mk { formId : string; questionResponses : ArrayRef }.
End FormResponse.

End KMTypes.
Import KMTypes.

(** ** Handlers with effects

    An [async] function is a tree of its effects: console output, reads and
    writes of the component state, timers, [await fetch(...)], whose
    continuation receives the settled promise, and [await response.json()],
    whose continuation receives the body once it is read.  A synchronous
    function is a tree without [Await] and [AwaitJson]. *)
Module Effects.

Definition Exn : Set := string.

Inductive Method : Set := GET | PUT.

Record Request : Set := mkRequest
  { url : string;
    method : Method;
    headers : list (string * string);
    body : option string }.

(** A response: its status, and what [response.json()] settles to. *)
Record Response : Set := mkResponse
  { status : Z; json : Exn + TypeForm.t }.

(** A settled [fetch]: rejected (network failure) or a response. *)
Definition FetchResult : Set := (Exn + Response)%type.

Inductive LogEntry : Set :=
| LogString (s : string)
| LogNumber (n : Z)
| LogObject (r : Response).

Inductive Async (S A : Type) : Type :=
| Ret (a : A)
| Throw (e : Exn)
| ConsoleLog (m : LogEntry) (k : Async S A)
| Get (k : S -> Async S A)
| Modify (f : S -> S) (k : Async S A)
| SetTimeout (callback : S -> S) (ms : Z) (k : Async S A)
| Await (req : Request) (k : FetchResult -> Async S A)
| AwaitJson (resp : Response) (k : Exn + TypeForm.t -> Async S A).

Arguments Ret {S A} a.
Arguments Throw {S A} e.
Arguments ConsoleLog {S A} m k.
Arguments Get {S A} k.
Arguments Modify {S A} f k.
Arguments SetTimeout {S A} callback ms k.
Arguments Await {S A} req k.
Arguments AwaitJson {S A} resp k.

Fixpoint bind {S A B : Type} (m : Async S A) (f : A -> Async S B) : Async S B :=
  match m with
  | Ret a => f a
  | Throw e => Throw e
  | ConsoleLog l k => ConsoleLog l (bind k f)
  | Get k => Get (fun s => bind (k s) f)
  | Modify g k => Modify g (bind k f)
  | SetTimeout cb ms k => SetTimeout cb ms (bind k f)
  | Await req k => Await req (fun r => bind (k r) f)
  | AwaitJson resp k => AwaitJson resp (fun r => bind (k r) f)
  end.

(** [try { m } catch (e) { h e }]. *)
Fixpoint tryCatch {S A : Type} (m : Async S A) (h : Exn -> Async S A) : Async S A :=
  match m with
  | Ret a => Ret a
  | Throw e => h e
  | ConsoleLog l k => ConsoleLog l (tryCatch k h)
  | Get k => Get (fun s => tryCatch (k s) h)
  | Modify g k => Modify g (tryCatch k h)
  | SetTimeout cb ms k => SetTimeout cb ms (tryCatch k h)
  | Await req k => Await req (fun r => tryCatch (k r) h)
  | AwaitJson resp k => AwaitJson resp (fun r => tryCatch (k r) h)
  end.

(** [await fetch(req)]: a rejected promise is thrown at the [await]. *)
Definition fetch {S : Type} (req : Request) : Async S Response :=
  Await req (fun r => match r with inl e => Throw e | inr resp => Ret resp end).

(** [await response.json()]: the handler waits until the body is read; a
    body that does not parse is thrown at the [await]. *)
Definition json_of {S : Type} (resp : Response) : Async S TypeForm.t :=
  AwaitJson resp (fun r => match r with inl e => Throw e | inr form => Ret form end).

Notation "x <- m ;; k" := (bind m (fun x => k))
  (at level 61, m at next level, right associativity).
Notation "m ;;; k" := (bind m (fun _ => k))
  (at level 61, right associativity).

(** What a handler leaves behind: the component state, the console, the
    requests handed to [fetch] (oldest first) and the timers set. *)
Record World (S : Type) : Type := mkWorld
  { state : S;
    console : list LogEntry;
    requests : list Request;
    timers : list (Z * (S -> S)) }.

Arguments mkWorld {S} state console requests timers.
Arguments state {S} w.
Arguments console {S} w.
Arguments requests {S} w.
Arguments timers {S} w.

Definition newWorld {S : Type} (s : S) : World S := mkWorld s [] [] [].

(** Running a handler to its end against a network [net] that settles
    every request at once: the sequential behaviour of one call. *)
Fixpoint run {S A : Type} (net : Request -> FetchResult) (m : Async S A)
  (w : World S) : (Exn + A) * World S :=
  match m with
  | Ret a => (inr a, w)
  | Throw e => (inl e, w)
  | ConsoleLog l k =>
      run net k (mkWorld (state w) (console w ++ [l]) (requests w) (timers w))
  | Get k => run net (k (state w)) w
  | Modify g k =>
      run net k (mkWorld (g (state w)) (console w) (requests w) (timers w))
  | SetTimeout cb ms k =>
      run net k (mkWorld (state w) (console w) (requests w) (timers w ++ [(ms, cb)]))
  | Await req k =>
      run net (k (net req))
        (mkWorld (state w) (console w) (requests w ++ [req]) (timers w))
  | AwaitJson resp k => run net (k (json resp)) w
  end.

(** The event loop.  A handler runs without interruption up to its first
    [await]; there the request has been handed to [fetch] and the rest of
    the handler waits.  Other handlers run before the promise settles.  At
    [await response.json()] the rest of the handler waits as well; what the
    body settles to is fixed by the response, so that the rest does not
    look at the outcome it is resumed with. *)
Inductive Progress (S A : Type) : Type :=
| Finished (r : Exn + A)
| Suspended (k : FetchResult -> Async S A).

Arguments Finished {S A} r.
Arguments Suspended {S A} k.

Fixpoint start {S A : Type} (m : Async S A) (w : World S) : Progress S A * World S :=
  match m with
  | Ret a => (Finished (inr a), w)
  | Throw e => (Finished (inl e), w)
  | ConsoleLog l k =>
      start k (mkWorld (state w) (console w ++ [l]) (requests w) (timers w))
  | Get k => start (k (state w)) w
  | Modify g k =>
      start k (mkWorld (g (state w)) (console w) (requests w) (timers w))
  | SetTimeout cb ms k =>
      start k (mkWorld (state w) (console w) (requests w) (timers w ++ [(ms, cb)]))
  | Await req k =>
      (Suspended k, mkWorld (state w) (console w) (requests w ++ [req]) (timers w))
  | AwaitJson resp k => (Suspended (fun _ => k (json resp)), w)
  end.

Record System (S : Type) : Type := mkSystem
  { world : World S;
    waiting : list (FetchResult -> Async S unit) }.

Arguments mkSystem {S} world waiting.
Arguments world {S} s.
Arguments waiting {S} s.

Inductive Event (S : Type) : Type :=
| Handler (h : Async S unit)   (* a user event runs its handler *)
| Settle (r : FetchResult)     (* the oldest pending promise settles; [r] when it is a fetch *)
| TimerFires.                  (* the oldest timer fires *)

Arguments Handler {S} h.
Arguments Settle {S} r.
Arguments TimerFires {S}.

Definition enter {S : Type} (m : Async S unit) (w : World S)
  (rest : list (FetchResult -> Async S unit)) : System S :=
  match start m w with
  | (Finished _, w') => mkSystem w' rest
  | (Suspended k, w') => mkSystem w' (rest ++ [k])
  end.

Definition step {S : Type} (sys : System S) (ev : Event S) : System S :=
  match ev with
  | Handler h => enter h (world sys) (waiting sys)
  | Settle r =>
      match waiting sys with
      | [] => sys
      | k :: rest => enter (k r) (world sys) rest
      end
  | TimerFires =>
      match timers (world sys) with
      | [] => sys
      | (_, cb) :: rest =>
          mkSystem (mkWorld (cb (state (world sys))) (console (world sys))
                            (requests (world sys)) rest)
                   (waiting sys)
      end
  end.

Definition steps {S : Type} (sys : System S) (evs : list (Event S)) : System S :=
  fold_left step evs sys.

End Effects.
Import Effects.

(** ** KMChoicePromptView: the selection encoder *)

(** An option id as the backend hands it out: one character, ['0'] to ['9']. *)
Definition isDigit (c : ascii) : bool :=
  let n := nat_of_ascii c in (48 <=? n)%nat && (n <=? 57)%nat.

Definition validId (a : string) : bool :=
  match a with
  | String c EmptyString => isDigit c
  | _ => false
  end.

(** [FButton.onClickListener]: the value handed to [setSelectedState] when
    the button with id [id] is clicked while the signal holds
    [selectedState]. *)
Definition onClickListener (multipleChoiceMode : bool) (id selectedState : string) : string :=
  if multipleChoiceMode then
    if includes selectedState id then replace selectedState id ""
    else selectedState ++ id
  else
    if String.eqb selectedState id then "" else id.

(** The [checked] attribute of the button's input: whether option [id] is
    selected in [selectedState]. *)
Definition checked (selectedState id : string) : bool := includes selectedState id.

(** A series of clicks, the signal starting at [s]. *)
Definition clicks (multipleChoiceMode : bool) (ids : list string) (s : string) : string :=
  fold_left (fun st a => onClickListener multipleChoiceMode a st) ids s.

(** The states of the [selectedState] signal: [createSignal("")], then one
    click after the other on buttons with valid ids. *)
Inductive reachable (multipleChoiceMode : bool) : string -> Prop :=
| reachable_init : reachable multipleChoiceMode ""
| reachable_click : forall s a,
    reachable multipleChoiceMode s ->
    validId a = true ->
    reachable multipleChoiceMode (onClickListener multipleChoiceMode a s).

(** ** The text prompts

    Both prompts keep an [error] signal, [false] at first, and run
    [onValueChange] on every [keyup] of their field; [ref_value] is the text
    the field holds at that moment.  [storeUpdates] lists the calls made to
    [props.storeUpdater], oldest first. *)
Module KMShortPromptView.

Record Props : Set := mkProps
  { id : string;
    type : string;
    prompt : string;
    description : option string;
    required : bool;
    errorMessage : option string;
    placeholder : option string }.

Record State : Set := mkState
  { error : bool; storeUpdates : list (string * string) }.

(** [createSignal(false)]. *)
Definition init : State := mkState false [].

Definition onValueChange (props : Props) (ref_value : string) (st : State) : State :=
  mkState (String.eqb ref_value "" && required props)
          (storeUpdates st ++ [(id props, ref_value)]).

(** [classList={{"hidden": (!error())}}] on the error message. *)
Definition errorHidden (props : Props) (st : State) : bool := negb (error st).

(** The error flag at first and after each keystroke of a series. *)
Fixpoint errorTrace (props : Props) (values : list string) (st : State) : list bool :=
  error st ::
  match values with
  | [] => []
  | v :: rest => errorTrace props rest (onValueChange props v st)
  end.

End KMShortPromptView.

(** KMLongPromptView (FLongPromptView), with a [textarea]. *)
Module KMLongPromptView.

Record Props : Set := mkProps
  { id : string;
    cols : Z;
    rows : Z;
    prompt : string;
    description : option string;
    required : bool;
    errorMessage : option string;
    placeholder : option string }.

Record State : Set := mkState
  { error : bool; storeUpdates : list (string * string) }.

Definition init : State := mkState false [].

Definition onValueChange (props : Props) (ref_value : string) (st : State) : State :=
  mkState (String.eqb ref_value "")
          (storeUpdates st ++ [(id props, ref_value)]).

(** [classList={{"hidden": (!error() || !props.required)}}]. *)
Definition errorHidden (props : Props) (st : State) : bool :=
  negb (error st) || negb (required props).

End KMLongPromptView.

(** ** api/form-respond *)
Module FormRespond.
Section WithEnvironment.

(** The component state the call runs in, and how the array behind a
    reference is read from it. *)
Context {S : Type}.
Variable deref : S -> ArrayRef -> list QuestionResponse.t.

(** [JSON.stringify] of a form response whose fields hold these values at
    the time of the call. *)
Variable JSON_stringify : string -> list QuestionResponse.t -> string.

(** [import.meta.env["VITE_PUBLIC_SEC"]]. *)
Variable VITE_PUBLIC_SEC : string.

Definition baseUrl : string := "https://kam-backend.vercel.app/".

Definition fetchUrl (data : FormResponse.t) : string :=
  baseUrl ++ "form/respond?formId=" ++ FormResponse.formId data.

(** The request of one call, the store holding [values]. *)
Definition request (data : FormResponse.t) (values : list QuestionResponse.t) : Request :=
  mkRequest (fetchUrl data) PUT
    [("aKey", VITE_PUBLIC_SEC); ("Content-Type", "application/json")]
    (Some (JSON_stringify (FormResponse.formId data) values)).

Definition formRespond (data : FormResponse.t) : Async S bool :=
  tryCatch
    (ConsoleLog (LogString (fetchUrl data))
       (Get (fun s =>
          result <- fetch (request data (deref s (FormResponse.questionResponses data))) ;;
          ConsoleLog (LogNumber (status result))
            (Ret (Z.eqb (status result) 204)))))
    (fun e => ConsoleLog (LogString e) (Ret false)).

End WithEnvironment.
End FormRespond.

(** ** The form view and its response store *)
Module FormView.

Record State : Type := mkState
  { values : list QuestionResponse.t;   (* the store *)
    whenLoading : bool;
    beginViewTransition : bool }.       (* the signal behind [props.beginViewTransition] *)

Definition initialiseStore (questions : list Question.t) : list QuestionResponse.t :=
  map (fun q => QuestionResponse.mk None (Question.id q) "") questions.

(** [createStore(initialiseStore(props.data.questions))] and
    [createSignal(false)]. *)
Definition init (data : TypeForm.t) : State :=
  mkState (initialiseStore (TypeForm.questions data)) false false.

(** [setValues(array)]: the store takes the elements of [array]; the store
    object itself, and so every reference to it, stays the same. *)
Definition setValues (array : list QuestionResponse.t) (st : State) : State :=
  mkState array (whenLoading st) (beginViewTransition st).

Definition setWhenLoading (b : bool) (st : State) : State :=
  mkState (values st) b (beginViewTransition st).

Definition setBeginViewTransition (b : bool) (st : State) : State :=
  mkState (values st) (whenLoading st) b.

Definition updateStore (id value : string) (st : State) : State :=
  setValues
    (map (fun v =>
            if String.eqb (QuestionResponse.questionId v) id
            then QuestionResponse.mk (QuestionResponse.id v)
                                     (QuestionResponse.questionId v) value
            else v)
         (values st))
    st.

(** Reading an array through a reference: the store as it is now. *)
Definition deref (st : State) (r : ArrayRef) : list QuestionResponse.t :=
  match r with StoreRef => values st end.

(** What a form response object shows when it is read in state [st]. *)
Definition readFormResponse (st : State) (r : FormResponse.t)
  : string * list QuestionResponse.t :=
  (FormResponse.formId r, deref st (FormResponse.questionResponses r)).

(** [{ formId: props.data.id, questionResponses: values }]. *)
Definition formResponse (data : TypeForm.t) : FormResponse.t :=
  FormResponse.mk (TypeForm.id data) StoreRef.

Section Submit.

Variable JSON_stringify : string -> list QuestionResponse.t -> string.
Variable data : TypeForm.t.

(** KMFormView's form view: [fetch(props.submitUrl, { headers: { method:
    "PUT", body: JSON.stringify(responses) } })]; the method and the body
    are written inside [headers], so the request itself has neither. *)
Variable submitUrl : string.

Definition submitRequest (values : list QuestionResponse.t) : Request :=
  mkRequest submitUrl GET
    [("method", "PUT"); ("body", JSON_stringify (TypeForm.id data) values)]
    None.

Definition submitForm : Async State unit :=
  Modify (setWhenLoading true)
    (let responses := formResponse data in
     Get (fun st =>
       _ <- fetch (submitRequest (deref st (FormResponse.questionResponses responses))) ;;
       Modify (setBeginViewTransition true) (Ret tt))).

(** FFormView: [await formRespond(responses)], then the transition one
    second later. *)
Variable VITE_PUBLIC_SEC : string.

Definition submitFormF : Async State unit :=
  Modify (setWhenLoading true)
    (let responses := formResponse data in
     _ <- FormRespond.formRespond deref JSON_stringify VITE_PUBLIC_SEC responses ;;
     SetTimeout (setBeginViewTransition true) 1000 (Ret tt)).

End Submit.
End FormView.

(** ** KMFormView: loading the form definition *)
Module KMFormView.

Record Props : Set := mkProps
  { restFetchUrl : string; restSubmitUrl : string; apiKey : string }.

Record State : Set := mkState
  { loadingData : bool;
    loadingError : bool;
    closedForm : bool;
    result : option TypeForm.t }.

(** [createSignal(true)], [createSignal(false)], [createSignal(false)] and
    [let result]. *)
Definition init : State := mkState true false false None.

Definition fetchRequest (props : Props) : Request :=
  mkRequest (restFetchUrl props) GET [("aKey", apiKey props)] None.

Definition fetchFormStructure (props : Props) : Async State TypeForm.t :=
  result <- fetch (fetchRequest props) ;;
  ConsoleLog (LogNumber (status result))
    (ConsoleLog (LogObject result)
       (if Z.eqb (status result) 200 then json_of result
        else Throw "Error loading JSON")).

Definition onMount (props : Props) : Async State unit :=
  tryCatch
    (form <- fetchFormStructure props ;;
     Modify (fun st => mkState (loadingData st) (loadingError st) (closedForm st) (Some form))
       (Modify (fun st => mkState (loadingData st) (loadingError st)
                                  (negb (TypeForm.stillAccepting form)) (result st))
          (Modify (fun st => mkState false (loadingError st) (closedForm st) (result st))
             (Ret tt))))
    (fun e =>
       ConsoleLog (LogString ("error" ++ e))
         (Modify (fun st => mkState (loadingData st) true (closedForm st) (result st))
            (Ret tt))).

Inductive Screen : Set :=
| LoadingScreen
| ErrorScreen
| ClosedForm
| FormViewScreen (data : option TypeForm.t).   (* [data={result!}] *)

(** The four [Show] blocks, in the order of the markup. *)
Definition view (st : State) : list Screen :=
  (if loadingData st && negb (loadingError st) then [LoadingScreen] else []) ++
  (if loadingError st then [ErrorScreen] else []) ++
  (if negb (loadingData st) && negb (loadingError st) && closedForm st
   then [ClosedForm] else []) ++
  (if negb (loadingData st) && negb (loadingError st) && negb (closedForm st)
   then [FormViewScreen (result st)] else []).

End KMFormView.

(** ** Sample data for the examples *)
Module Sample.

Definition question (id : string) : Question.t :=
  Question.mk id "prompt" None short [] true None None "f".

Definition openForm : TypeForm.t :=
  TypeForm.mk "f" "form" "2023-12-15" true [question "q1"].

Definition closedForm : TypeForm.t :=
  TypeForm.mk "f" "form" "2023-12-15" false [question "q1"].

Definition entry (questionId value : string) : QuestionResponse.t :=
  QuestionResponse.mk None questionId value.

Definition store3 : FormView.State :=
  FormView.mkState [entry "q1" "a"; entry "q2" "b"; entry "q3" "c"] false false.

(** A network that answers every request with the same response. *)
Definition respondsWith (status : Z) (body : Exn + TypeForm.t) : Request -> FetchResult :=
  fun _ => inr (mkResponse status body).

(** A stand-in for [JSON.stringify]: the form id and the values. *)
Definition stringify (formId : string) (values : list QuestionResponse.t) : string :=
  formId ++ ":" ++ String.concat "," (map QuestionResponse.value values).

Definition props : KMFormView.Props := KMFormView.mkProps "fetch" "submit" "key".

Definition shortProps (required : bool) : KMShortPromptView.Props :=
  KMShortPromptView.mkProps "q1" "text" "prompt" None required None None.

Definition longProps (required : bool) : KMLongPromptView.Props :=
  KMLongPromptView.mkProps "q1" 4 4 "prompt" None required None None.

End Sample.

(** ** KMChoicePromptView: the signal, the effect and the buttons *)
Module KMChoicePromptView.

Record Props : Set := mkProps
  { id : string;
    prompt : string;
    description : option string;
    required : bool;
    options : list Option.t;
    class : option string;
    multipleChoiceMode : option bool }.

(** The [selectedState] signal, the variable [prevSelectState], and the
    calls made to [props.storeUpdater], oldest first. *)
Record State : Set := mkState
  { selectedState : string;
    prevSelectState : string;
    storeUpdates : list (string * string) }.

(** [createSignal("")] and [let prevSelectState = ""]. *)
Definition init : State := mkState "" "" [].

(** [props.multipleChoiceMode == undefined ? false : props.multipleChoiceMode]. *)
Definition multiChoiceMode (props : Props) : bool :=
  match multipleChoiceMode props with
  | None => false
  | Some b => b
  end.

(** The body of [createEffect]. *)
Definition effect (props : Props) (st : State) : State :=
  if negb (String.eqb (selectedState st) (prevSelectState st))
  then mkState (selectedState st) (selectedState st)
               (storeUpdates st ++ [(id props, selectedState st)])
  else st.

(** [setSelectedState(v)]: a signal set to the value it already holds
    notifies nobody; otherwise the effect runs again. *)
Definition setSelectedState (props : Props) (v : string) (st : State) : State :=
  if String.eqb v (selectedState st) then st
  else effect props (mkState v (prevSelectState st) (storeUpdates st)).

(** The component once rendered: the effect has run for the first time. *)
Definition mounted (props : Props) : State := effect props init.

(** A click on the button of option [optionId]. *)
Definition click (props : Props) (optionId : string) (st : State) : State :=
  setSelectedState props
    (onClickListener (multiChoiceMode props) optionId (selectedState st)) st.

Definition clickAll (props : Props) (optionIds : list string) (st : State) : State :=
  fold_left (fun s a => click props a s) optionIds st.

(** There is one button per option: [<For each={props.options}>]. *)
Definition hasButton (props : Props) (optionId : string) : bool :=
  existsb (fun o => String.eqb (Option.id o) optionId) (options props).

(** What holds of the component between two clicks: [prevSelectState] has
    caught up with the signal, and the store updater was last called, under
    the id of the prompt, with the selection. *)
Definition settled (props : Props) (st : State) : Prop :=
  prevSelectState st = selectedState st /\
  Forall (fun c => fst c = id props) (storeUpdates st) /\
  last (map snd (storeUpdates st)) "" = selectedState st.

End KMChoicePromptView.

(** The selection after each click of a series, oldest first. *)
Fixpoint selections (multipleChoiceMode : bool) (ids : list string) (s : string)
  : list string :=
  match ids with
  | [] => []
  | a :: rest =>
      onClickListener multipleChoiceMode a s
        :: selections multipleChoiceMode rest (onClickListener multipleChoiceMode a s)
  end.

(** ** What a handler may write, and whether it fetches *)
Module Frame.
Section Writes.
Context {S : Type}.
Variable R : S -> S -> Prop.

(** Every state write of [m], and every timer callback it sets, takes a
    state to one related to it by [R]. *)
Fixpoint allWrites {A : Type} (m : Async S A) : Prop :=
  match m with
  | Ret _ => True
  | Throw _ => True
  | ConsoleLog _ k => allWrites k
  | Get k => forall s, allWrites (k s)
  | Modify f k => (forall s, R s (f s)) /\ allWrites k
  | SetTimeout cb _ k => (forall s, R s (cb s)) /\ allWrites k
  | Await _ k => forall r, allWrites (k r)
  | AwaitJson _ k => forall r, allWrites (k r)
  end.

End Writes.

(** [m] hands nothing to [fetch] and waits for nothing. *)
Fixpoint noFetch {S A : Type} (m : Async S A) : Prop :=
  match m with
  | Ret _ => True
  | Throw _ => True
  | ConsoleLog _ k => noFetch k
  | Get k => forall s, noFetch (k s)
  | Modify _ k => noFetch k
  | SetTimeout _ _ k => noFetch k
  | Await _ _ => False
  | AwaitJson _ _ => False
  end.

(** The pending handlers and the timers of a system only write within [R]
    and never fetch. *)
Definition tidy {S : Type} (R : S -> S -> Prop) (sys : System S) : Prop :=
  Forall (fun k => forall r, allWrites R (k r) /\ noFetch (k r)) (waiting sys) /\
  Forall (fun t => forall s, R s (snd t s)) (timers (world sys)).

End Frame.

(** ** The events of a form view *)
Module FormEvents.

Inductive FormEvent : Set :=
| Update (id value : string)     (* a control calls [updateStore] *)
| Submit                         (* the submit button of KMFormView's form view *)
| SubmitF                        (* the submit button of FFormView *)
| Settled (r : FetchResult)      (* the oldest pending request settles *)
| Timer.                         (* the oldest timer fires *)

Definition isSubmit (e : FormEvent) : bool :=
  match e with
  | Submit | SubmitF => true
  | _ => false
  end.

(** The store after [updateStore id value], the store holding [values]. *)
Definition updated (id value : string) (values : list QuestionResponse.t)
  : list QuestionResponse.t :=
  FormView.values (FormView.updateStore id value (FormView.mkState values false false)).

(** The store after the updates of a trace, in their order. *)
Fixpoint storeAfter (evs : list FormEvent) (values : list QuestionResponse.t)
  : list QuestionResponse.t :=
  match evs with
  | [] => values
  | Update id value :: rest => storeAfter rest (updated id value values)
  | _ :: rest => storeAfter rest values
  end.

(** What the rest of a submit handler and its timer may do to the state:
    they leave the store and the loading flag alone. *)
Definition quiet (s s' : FormView.State) : Prop :=
  FormView.values s' = FormView.values s /\
  FormView.whenLoading s' = FormView.whenLoading s.

Section WithForm.

Variable JSON_stringify : string -> list QuestionResponse.t -> string.
Variable data : TypeForm.t.
Variable submitUrl : string.
Variable VITE_PUBLIC_SEC : string.

Definition eventOf (e : FormEvent) : Event FormView.State :=
  match e with
  | Update id value => Handler (Modify (FormView.updateStore id value) (Ret tt))
  | Submit => Handler (FormView.submitForm JSON_stringify data submitUrl)
  | SubmitF => Handler (FormView.submitFormF JSON_stringify data VITE_PUBLIC_SEC)
  | Settled r => Settle r
  | Timer => TimerFires
  end.

(** The form view once created, nothing pending. *)
Definition mounted : System FormView.State :=
  mkSystem (newWorld (FormView.init data)) [].

Definition play (sys : System FormView.State) (evs : list FormEvent)
  : System FormView.State :=
  steps sys (map eventOf evs).

(** One request per click on a submit button, serialising the store as the
    updates before that click left it. *)
Fixpoint submitted (evs : list FormEvent) (values : list QuestionResponse.t)
  : list Request :=
  match evs with
  | [] => []
  | Update id value :: rest => submitted rest (updated id value values)
  | Submit :: rest =>
      FormView.submitRequest JSON_stringify data submitUrl values
        :: submitted rest values
  | SubmitF :: rest =>
      FormRespond.request JSON_stringify VITE_PUBLIC_SEC (FormView.formResponse data) values
        :: submitted rest values
  | _ :: rest => submitted rest values
  end.

End WithForm.
End FormEvents.

(** ** A form and its controls

    The form view renders the questions in order: a choice prompt for the
    single- and multi-choice types, a short or a long text prompt, and
    nothing for the two types with images.  Every control is given
    [updateStore] as its [storeUpdater]. *)
Module Form.

(** The string values of the [QuestionType] enum. *)
Definition typeValue (t : QuestionType) : string :=
  match t with
  | multi => "MultiChoice"
  | single => "SingleChoice"
  | short => "ShortAnswer"
  | long => "LongAnswer"
  | singleWithImage => "SingleChoiceWithImage"
  | multiWithImage => "MultiChoiceWithImage"
  end.

Inductive Control : Set :=
| ChoiceView (props : KMChoicePromptView.Props) (st : KMChoicePromptView.State)
| ShortView (props : KMShortPromptView.Props) (st : KMShortPromptView.State)
| LongView (props : KMLongPromptView.Props) (st : KMLongPromptView.State)
| NoView.

(** The [Switch] of the form view. *)
Definition render (each : Question.t) : Control :=
  match Question.type each with
  | single =>
      ChoiceView
        (KMChoicePromptView.mkProps (Question.id each) (Question.prompt each)
           (Question.description each) (Question.required each)
           (Question.options each) None None)
        (KMChoicePromptView.mounted
           (KMChoicePromptView.mkProps (Question.id each) (Question.prompt each)
              (Question.description each) (Question.required each)
              (Question.options each) None None))
  | multi =>
      ChoiceView
        (KMChoicePromptView.mkProps (Question.id each) (Question.prompt each)
           (Question.description each) (Question.required each)
           (Question.options each) None (Some true))
        (KMChoicePromptView.mounted
           (KMChoicePromptView.mkProps (Question.id each) (Question.prompt each)
              (Question.description each) (Question.required each)
              (Question.options each) None (Some true)))
  | short =>
      ShortView
        (KMShortPromptView.mkProps (Question.id each) (typeValue (Question.type each))
           (Question.prompt each) (Question.description each)
           (Question.required each) None (Question.placeholder each))
        KMShortPromptView.init
  | long =>
      LongView
        (KMLongPromptView.mkProps (Question.id each) 4 4 (Question.prompt each)
           (Question.description each) (Question.required each) None
           (Question.placeholder each))
        KMLongPromptView.init
  | singleWithImage => NoView
  | multiWithImage => NoView
  end.

Record State : Type := mkState
  { controls : list Control; form : FormView.State }.

Definition mount (data : TypeForm.t) : State :=
  mkState (map render (TypeForm.questions data)) (FormView.init data).

(** What the user does: a click on the button [optionId] of the control at
    position [i], or a key released in the field of the control at position
    [i], the field then holding [text]. *)
Inductive UiEvent : Set :=
| Click (i : nat) (optionId : string)
| KeyUp (i : nat) (text : string).

Fixpoint updateAt {A : Type} (i : nat) (x : A) (l : list A) : list A :=
  match l, i with
  | [], _ => []
  | _ :: rest, O => x :: rest
  | y :: rest, S j => y :: updateAt j x rest
  end.

(** The calls a handler added to a control's list of store updates. *)
Definition newCalls (before after : list (string * string)) : list (string * string) :=
  skipn (length before) after.

Definition pushCalls (calls : list (string * string)) (st : FormView.State)
  : FormView.State :=
  fold_left (fun s c => FormView.updateStore (fst c) (snd c) s) calls st.

Definition step (s : State) (ev : UiEvent) : State :=
  match ev with
  | Click i optionId =>
      match nth_error (controls s) i with
      | Some (ChoiceView props st) =>
          if KMChoicePromptView.hasButton props optionId then
            let st' := KMChoicePromptView.click props optionId st in
            mkState (updateAt i (ChoiceView props st') (controls s))
                    (pushCalls (newCalls (KMChoicePromptView.storeUpdates st)
                                         (KMChoicePromptView.storeUpdates st'))
                               (form s))
          else s
      | _ => s
      end
  | KeyUp i text =>
      match nth_error (controls s) i with
      | Some (ShortView props st) =>
          let st' := KMShortPromptView.onValueChange props text st in
          mkState (updateAt i (ShortView props st') (controls s))
                  (pushCalls (newCalls (KMShortPromptView.storeUpdates st)
                                       (KMShortPromptView.storeUpdates st'))
                             (form s))
      | Some (LongView props st) =>
          let st' := KMLongPromptView.onValueChange props text st in
          mkState (updateAt i (LongView props st') (controls s))
                  (pushCalls (newCalls (KMLongPromptView.storeUpdates st)
                                       (KMLongPromptView.storeUpdates st'))
                             (form s))
      | _ => s
      end
  end.

Definition steps (s : State) (evs : list UiEvent) : State := fold_left step evs s.

(** What a control holds: the selection of a choice prompt, the text last
    passed on by a text prompt. *)
Definition content (c : Control) : string :=
  match c with
  | ChoiceView _ st => KMChoicePromptView.selectedState st
  | ShortView _ st => last (map snd (KMShortPromptView.storeUpdates st)) ""
  | LongView _ st => last (map snd (KMLongPromptView.storeUpdates st)) ""
  | NoView => ""
  end.

(** The store entry that shows what the control of a question holds. *)
Definition entryOf (qc : Question.t * Control) : QuestionResponse.t :=
  QuestionResponse.mk None (Question.id (fst qc)) (content (snd qc)).

(** The control at the place of a question is the one [render] chose for
    its type, carries its id and, for a choice prompt, is settled. *)
Definition wired (q : Question.t) (c : Control) : Prop :=
  match c with
  | ChoiceView props st =>
      (Question.type q = single \/ Question.type q = multi) /\
      KMChoicePromptView.id props = Question.id q /\
      KMChoicePromptView.settled props st
  | ShortView props _ =>
      Question.type q = short /\ KMShortPromptView.id props = Question.id q
  | LongView props _ =>
      Question.type q = long /\ KMLongPromptView.id props = Question.id q
  | NoView =>
      Question.type q = singleWithImage \/ Question.type q = multiWithImage
  end.

End Form.

(** ** A sample form for the examples *)
Module SampleForm.

Definition options : list Option.t :=
  [Option.mk "0" "zero" "" None; Option.mk "1" "one" "" None].

Definition questions : list Question.t :=
  [Question.mk "q1" "pick" None multi options true None None "f";
   Question.mk "q2" "name" None short [] true None None "f";
   Question.mk "q3" "photo" None multiWithImage options false None None "f"].

Definition data : TypeForm.t := TypeForm.mk "f" "form" "2023-12-15" true questions.

(** Two questions under one id. *)
Definition twins : TypeForm.t :=
  TypeForm.mk "f" "form" "2023-12-15" true
    [Question.mk "q1" "name" None short [] true None None "f";
     Question.mk "q1" "pick" None single options true None None "f"].

End SampleForm.

(** ** Strings with a one-character pattern *)
Section SingleChar.

Lemma chars_app (s t : string) : chars (s ++ t) = (chars s ++ chars t)%list.
Proof. induction s as [|c s IH]; simpl; [reflexivity | now rewrite IH]. Qed.

Lemma append_empty_r (s : string) : s ++ "" = s.
Proof. induction s as [|c s IH]; simpl; [reflexivity | now rewrite IH]. Qed.

Lemma append_assoc (s t u : string) : (s ++ t) ++ u = s ++ (t ++ u).
Proof. induction s as [|c s IH]; simpl; [reflexivity | now rewrite IH]. Qed.

Lemma includes_single (s : string) (c : ascii) :
  includes s (String c "") = true <-> In c (chars s).
Proof.
  induction s as [|d s IH]; simpl.
  - split; [discriminate | tauto].
  - rewrite andb_true_r, orb_true_iff, IH, Ascii.eqb_eq. tauto.
Qed.

Lemma includes_single_false (s : string) (c : ascii) :
  includes s (String c "") = false <-> ~ In c (chars s).
Proof.
  rewrite <- includes_single.
  destruct (includes s (String c "")); split; intros H;
    try discriminate; try reflexivity.
  now contradiction H.
Qed.

(** Removing a one-character pattern removes its leftmost occurrence. *)
Lemma replace_single_split (s : string) (c : ascii) :
  In c (chars s) ->
  exists l r, s = l ++ String c r /\ ~ In c (chars l) /\
              replace s (String c "") "" = l ++ r.
Proof.
  induction s as [|d s IH]; simpl; [tauto|].
  intros Hin. rewrite andb_true_r.
  destruct (Ascii.eqb d c) eqn:E.
  - apply Ascii.eqb_eq in E. subst d.
    exists "", s. simpl. repeat split; tauto.
  - apply Ascii.eqb_neq in E.
    destruct Hin as [-> | Hin]; [congruence|].
    destruct (IH Hin) as (l & r & Hs & Hl & Hr).
    exists (String d l), r. simpl. rewrite Hr, <- Hs.
    repeat split; try reflexivity. intros [H | H]; [congruence | tauto].
Qed.

Lemma replace_append_absent (s : string) (c : ascii) :
  ~ In c (chars s) -> replace (s ++ String c "") (String c "") "" = s.
Proof.
  induction s as [|d s IH]; simpl.
  - intros _. now rewrite Ascii.eqb_refl.
  - intros Hn. rewrite andb_true_r.
    destruct (Ascii.eqb d c) eqn:E.
    + apply Ascii.eqb_eq in E. tauto.
    + rewrite IH; tauto.
Qed.

Lemma validId_inv (a : string) :
  validId a = true -> exists c, a = String c "" /\ isDigit c = true.
Proof.
  destruct a as [|c [|d a]]; simpl; try discriminate.
  intros H. exists c. split; [reflexivity | exact H].
Qed.

(** The two branches of a click in multi-choice mode. *)
Lemma click_multi_cases (s : string) (c : ascii) :
  (exists l r, s = l ++ String c r /\ ~ In c (chars l) /\
               onClickListener true (String c "") s = l ++ r)
  \/ (~ In c (chars s) /\ onClickListener true (String c "") s = s ++ String c "").
Proof.
  unfold onClickListener.
  destruct (includes s (String c "")) eqn:E.
  - left. apply includes_single in E.
    destruct (replace_single_split s c E) as (l & r & Hs & Hl & Hr).
    exists l, r. auto.
  - right. apply includes_single_false in E. auto.
Qed.

End SingleChar.

(** ** The selection state never repeats a character *)
Section SelectionInvariant.

Lemma click_multi_NoDup (s : string) (c : ascii) :
  NoDup (chars s) -> NoDup (chars (onClickListener true (String c "") s)).
Proof.
  intros Hnd.
  destruct (click_multi_cases s c) as [(l & r & Hs & Hl & Hr) | [Hn Hr]];
    rewrite Hr.
  - subst s. rewrite chars_app in *. simpl in Hnd.
    now apply NoDup_remove_1 in Hnd.
  - rewrite chars_app. simpl.
    apply (Permutation_NoDup (Permutation_cons_append (chars s) c)).
    now constructor.
Qed.

Lemma click_single_shape (a s : string) :
  validId a = true ->
  onClickListener false a s = "" \/ validId (onClickListener false a s) = true.
Proof.
  intros Ha. unfold onClickListener.
  destruct (String.eqb s a); [now left | now right].
Qed.

Lemma validId_NoDup (a : string) : validId a = true -> NoDup (chars a).
Proof.
  intros Ha. destruct (validId_inv a Ha) as (c & -> & _). simpl.
  constructor; [simpl; tauto | constructor].
Qed.

Lemma validId_length (a : string) : validId a = true -> String.length a = 1%nat.
Proof. intros Ha. now destruct (validId_inv a Ha) as (c & -> & _). Qed.

Lemma click_NoDup (multi : bool) (a s : string) :
  validId a = true -> NoDup (chars s) ->
  NoDup (chars (onClickListener multi a s)).
Proof.
  intros Ha Hnd. destruct multi.
  - destruct (validId_inv a Ha) as (c & -> & _). now apply click_multi_NoDup.
  - destruct (click_single_shape a s Ha) as [-> | H].
    + constructor.
    + now apply validId_NoDup.
Qed.

Lemma reachable_NoDup (multi : bool) (s : string) :
  reachable multi s -> NoDup (chars s).
Proof.
  induction 1 as [|s a _ IH Ha]; [constructor | now apply click_NoDup].
Qed.

Lemma clicks_cons (multi : bool) (a : string) (ids : list string) (s : string) :
  clicks multi (a :: ids) s = clicks multi ids (onClickListener multi a s).
Proof. reflexivity. Qed.

Lemma clicks_NoDup (multi : bool) (ids : list string) :
  forallb validId ids = true ->
  forall s, NoDup (chars s) -> NoDup (chars (clicks multi ids s)).
Proof.
  induction ids as [|a ids IH]; intros Hv s Hs; [assumption|].
  apply andb_true_iff in Hv as [Ha Hv]. rewrite clicks_cons.
  apply IH; [assumption | now apply click_NoDup].
Qed.

Lemma clicks_single_shape (ids : list string) :
  forallb validId ids = true ->
  forall s, (s = "" \/ validId s = true) ->
  clicks false ids s = "" \/ validId (clicks false ids s) = true.
Proof.
  induction ids as [|a ids IH]; intros Hv s Hs; [assumption|].
  apply andb_true_iff in Hv as [Ha Hv]. rewrite clicks_cons.
  apply IH; [assumption | now apply click_single_shape].
Qed.

(** Clicking ids that are pairwise different and not yet selected appends
    them in click order. *)
Lemma clicks_multi_fresh (ids : list string) :
  forallb validId ids = true -> NoDup ids ->
  forall s, (forall a, In a ids -> checked s a = false) ->
  clicks true ids s = s ++ String.concat "" ids.
Proof.
  induction ids as [|a ids IH]; intros Hv Hnd s Hs.
  - simpl. now rewrite append_empty_r.
  - apply andb_true_iff in Hv as [Ha Hv].
    inversion Hnd as [|? ? Hna Hnd']; subst.
    assert (E : onClickListener true a s = s ++ a).
    { unfold onClickListener. specialize (Hs a (or_introl eq_refl)).
      unfold checked in Hs. now rewrite Hs. }
    rewrite clicks_cons, E, IH; try assumption.
    + rewrite append_assoc. f_equal.
      destruct ids as [|b ids']; simpl; [now rewrite append_empty_r | reflexivity].
    + intros b Hb. unfold checked.
      assert (Hvb : validId b = true).
      { exact (proj1 (forallb_forall validId ids) Hv b Hb). }
      destruct (validId_inv a Ha) as (c & -> & _).
      destruct (validId_inv b Hvb) as (d & -> & _).
      apply includes_single_false. rewrite chars_app. simpl.
      intros Hin. apply in_app_or in Hin as [Hin | [-> | []]].
      * specialize (Hs (String d "") (or_intror Hb)). unfold checked in Hs.
        apply includes_single_false in Hs. tauto.
      * tauto.
Qed.

Lemma chars_concat (ids : list string) :
  chars (String.concat "" ids) = flat_map chars ids.
Proof.
  induction ids as [|a ids IH]; [reflexivity|].
  destruct ids as [|b ids].
  - simpl. now rewrite app_nil_r.
  - change (String.concat "" (a :: b :: ids))
      with (a ++ String.concat "" (b :: ids)).
    rewrite chars_app, IH. reflexivity.
Qed.

End SelectionInvariant.

(** C1.  For every selection state [s] and single-digit option id [a]:
    in single-select mode the click yields the empty string when [s] equals
    [a] and [a] otherwise; in multi-select mode, when [a] occurs in [s] the
    click yields [s] without the (leftmost) occurrence of [a], the other
    characters keeping their order, and when [a] does not occur it yields
    [s] with [a] appended. *)
Theorem onClickListener_toggle (s : string) (c : ascii) :
  isDigit c = true ->
  let a := String c "" in
  ((s = a /\ onClickListener false a s = "")
   \/ (s <> a /\ onClickListener false a s = a)) /\
  ((exists l r, s = l ++ a ++ r /\ ~ In c (chars l) /\
                onClickListener true a s = l ++ r)
   \/ (~ In c (chars s) /\ onClickListener true a s = s ++ a)).
Proof.
  intros _ a. split.
  { unfold onClickListener. destruct (String.eqb s a) eqn:E.
    - left. apply String.eqb_eq in E. auto.
    - right. apply String.eqb_neq in E. auto. }
  unfold a. destruct (click_multi_cases s c) as [(l & r & H) | H].
  - left. exists l, r. exact H.
  - right. exact H.
Qed.

Lemma onClickListener_toggle_witness :
  (("02" = "0" /\ onClickListener false "0" "02" = "")
   \/ ("02" <> "0" /\ onClickListener false "0" "02" = "0")) /\
  ((exists l r, "02" = l ++ "0" ++ r /\ ~ In "0"%char (chars l) /\
                onClickListener true "0" "02" = l ++ r)
   \/ (~ In "0"%char (chars "02") /\ onClickListener true "0" "02" = "02" ++ "0")).
Proof. exact (onClickListener_toggle "02" "0"%char eq_refl). Defined.

(** The scenario of the multi-choice question with options 0, 1, 2. *)
Example toggle_scenario_multi :
  clicks true ["0"] "" = "0" /\ clicks true ["0"; "2"] "" = "02" /\
  clicks true ["0"; "2"; "0"] "" = "2".
Proof. repeat split. Qed.

Example toggle_scenario_single :
  clicks false ["0"; "1"] "" = "1" /\ clicks false ["0"; "0"] "" = "".
Proof. split; reflexivity. Qed.

(** Every reachable state is the outcome of a series of clicks. *)
Lemma clicks_app (multi : bool) (ids1 ids2 : list string) (s : string) :
  clicks multi (ids1 ++ ids2) s = clicks multi ids2 (clicks multi ids1 s).
Proof. unfold clicks. apply fold_left_app. Qed.

Lemma reachable_clicks (multi : bool) (s : string) :
  reachable multi s <->
  exists ids, forallb validId ids = true /\ s = clicks multi ids "".
Proof.
  split.
  - induction 1 as [|s a _ (ids & Hv & ->) Ha].
    + now exists [].
    + exists (ids ++ [a])%list. split.
      * rewrite forallb_app, Hv. simpl. now rewrite Ha.
      * now rewrite clicks_app.
  - intros (ids & Hv & ->). induction ids as [|a ids IH] using rev_ind.
    + constructor.
    + rewrite forallb_app in Hv. apply andb_true_iff in Hv as [Hv Ha].
      simpl in Ha. rewrite andb_true_r in Ha.
      rewrite clicks_app. simpl. apply reachable_click; auto.
Qed.

(** C6.  Starting from the empty selection and clicking buttons with valid
    single-digit ids: no reachable selection state repeats a character; in
    single-choice mode the state has length 0 or 1; and in multi-choice
    mode, after clicking each id of a list of pairwise different ids once,
    the state has no repeated character and is a permutation of those
    ids. *)
Theorem selection_state_invariant (ids : list string) :
  forallb validId ids = true ->
  (forall multi, NoDup (chars (clicks multi ids ""))) /\
  (String.length (clicks false ids "") = 0 \/
   String.length (clicks false ids "") = 1)%nat /\
  (NoDup ids ->
   NoDup (chars (clicks true ids "")) /\
   Permutation (chars (clicks true ids "")) (flat_map chars ids)).
Proof.
  intros Hv. split; [|split].
  - intros multi. apply clicks_NoDup; [assumption | constructor].
  - destruct (clicks_single_shape ids Hv "" (or_introl eq_refl)) as [-> | H].
    + now left.
    + right. now apply validId_length.
  - intros Hnd. split.
    + apply clicks_NoDup; [assumption | constructor].
    + rewrite (clicks_multi_fresh ids Hv Hnd "").
      * simpl. rewrite chars_concat. apply Permutation_refl.
      * intros a Ha. unfold checked.
        destruct (validId_inv a (proj1 (forallb_forall validId ids) Hv a Ha))
          as (c & -> & _).
        apply includes_single_false. simpl. tauto.
Qed.

Lemma selection_state_invariant_witness :
  (forall multi, NoDup (chars (clicks multi ["2"; "0"; "1"] ""))) /\
  (String.length (clicks false ["2"; "0"; "1"] "") = 0 \/
   String.length (clicks false ["2"; "0"; "1"] "") = 1)%nat /\
  NoDup (chars (clicks true ["2"; "0"; "1"] "")) /\
  Permutation (chars (clicks true ["2"; "0"; "1"] ""))
              (flat_map chars ["2"; "0"; "1"]).
Proof.
  destruct (selection_state_invariant ["2"; "0"; "1"] eq_refl) as (H1 & H2 & H3).
  split; [exact H1 | split; [exact H2 | apply H3]].
  repeat constructor; simpl; intros H;
    repeat (destruct H as [H | H]; [discriminate H|]); exact H.
Defined.

(** ** Clicking the same button twice *)

(** C2, as the specification words it: from every reachable multi-choice
    state, two clicks on the same valid id give the state back.  It fails
    when the id is selected and is not the last character: the second click
    appends it at the end. *)
Lemma toggle_twice_not_identity :
  ~ (forall s a, reachable true s -> validId a = true ->
       onClickListener true a (onClickListener true a s) = s).
Proof.
  intros H.
  assert (R : reachable true "02").
  { apply (reachable_click true "0" "2"); [|reflexivity].
    apply (reachable_click true "" "0"); [|reflexivity].
    apply reachable_init. }
  specialize (H "02" "0" R eq_refl). vm_compute in H. discriminate H.
Qed.

(** C2, amended.  From every reachable multi-choice state [s], two clicks on
    the same valid id [a] keep the selected ids (the result is a permutation
    of [s]): when [a] is not selected in [s] the result is [s]; when it is,
    the result is [s] with [a] moved to the end.  So the result is [s]
    exactly when [a] is not selected in [s] or is its last character. *)
Theorem toggle_twice_multi (s a : string) :
  reachable true s -> validId a = true ->
  let s2 := onClickListener true a (onClickListener true a s) in
  Permutation (chars s2) (chars s) /\
  ((checked s a = false /\ s2 = s)
   \/ (exists l r, s = l ++ a ++ r /\ checked s a = true /\ s2 = l ++ r ++ a)) /\
  (s2 = s <-> (checked s a = false \/ exists l, s = l ++ a)).
Proof.
  intros Hr Ha s2. apply reachable_NoDup in Hr.
  destruct (validId_inv a Ha) as (c & -> & _). unfold checked.
  destruct (click_multi_cases s c) as [(l & r & Hs & Hl & H1) | [Hn H1]].
  - (* [c] is selected: removed, then appended *)
    assert (Hin : In c (chars s)).
    { subst s. rewrite chars_app. simpl. apply in_elt. }
    assert (Hlr : ~ In c (chars (l ++ r))).
    { subst s. rewrite chars_app in *. simpl in Hr. now apply NoDup_remove_2 in Hr. }
    assert (E2 : s2 = l ++ r ++ String c "").
    { unfold s2. rewrite H1.
      destruct (click_multi_cases (l ++ r) c) as [(l' & r' & Hs' & _ & _) | [_ H2]].
      - exfalso. apply Hlr. rewrite Hs', chars_app. simpl. apply in_elt.
      - now rewrite H2, append_assoc. }
    assert (Hc : includes s (String c "") = true) by now apply includes_single.
    split; [|split].
    + rewrite E2, Hs, !chars_app. simpl. apply Permutation_app_head.
      apply Permutation_sym, Permutation_cons_append.
    + right. exists l, r. simpl. auto.
    + rewrite E2, Hs. split.
      * intros E. right. exists l.
        apply (f_equal chars) in E. rewrite !chars_app in E.
        apply app_inv_head in E. simpl in E.
        destruct r as [|d r]; [reflexivity|]. simpl in E.
        injection E as E1 E'. subst d.
        exfalso. apply Hlr. rewrite chars_app. simpl.
        apply in_or_app. right. now left.
      * intros [E | [l' E]]; [rewrite <- Hs, Hc in E; discriminate E|].
        assert (r = "") as ->; [|reflexivity].
        apply (f_equal chars) in E. rewrite !chars_app in E.
        simpl in E.
        destruct r as [|d r]; [reflexivity|].
        destruct (@exists_last _ (chars (String d r))) as (r' & x & Hx);
          [discriminate|].
        exfalso. rewrite Hx in E.
        change (chars l ++ c :: r' ++ [x])%list
          with (chars l ++ (c :: r') ++ [x])%list in E.
        rewrite app_assoc in E. apply app_inj_tail in E as [_ ->].
        apply Hlr. rewrite chars_app, Hx. apply in_or_app. right.
        apply in_or_app. right. now left.
  - (* [c] is not selected: appended, then removed *)
    assert (Hc : includes s (String c "") = false) by now apply includes_single_false.
    assert (E2 : s2 = s).
    { unfold s2. rewrite H1. unfold onClickListener.
      replace (includes (s ++ String c "") (String c "")) with true.
      - now apply replace_append_absent.
      - symmetry. apply includes_single. rewrite chars_app. apply in_or_app.
        right. now left. }
    split; [|split].
    + rewrite E2. apply Permutation_refl.
    + left. auto.
    + split; auto.
Qed.

Lemma toggle_twice_multi_witness :
  Permutation (chars (onClickListener true "0" (onClickListener true "0" "02")))
              (chars "02") /\
  ((checked "02" "0" = false /\
    onClickListener true "0" (onClickListener true "0" "02") = "02")
   \/ (exists l r, "02" = l ++ "0" ++ r /\ checked "02" "0" = true /\
         onClickListener true "0" (onClickListener true "0" "02") = l ++ r ++ "0")) /\
  (onClickListener true "0" (onClickListener true "0" "02") = "02" <->
     (checked "02" "0" = false \/ exists l, "02" = l ++ "0")).
Proof.
  apply (toggle_twice_multi "02" "0"); [|reflexivity].
  apply (reachable_click true "0" "2"); [|reflexivity].
  apply (reachable_click true "" "0"); [|reflexivity].
  apply reachable_init.
Defined.

(** ** The response store *)
Section Store.
Import FormView.

Lemma updateStore_values (id value : string) (st : State) :
  values (updateStore id value st) =
  map (fun v => if String.eqb (QuestionResponse.questionId v) id
                then QuestionResponse.mk (QuestionResponse.id v)
                                         (QuestionResponse.questionId v) value
                else v) (values st).
Proof. reflexivity. Qed.

Lemma updateStore_absent (id value : string) (vs : list QuestionResponse.t) :
  ~ In id (map QuestionResponse.questionId vs) ->
  map (fun v => if String.eqb (QuestionResponse.questionId v) id
                then QuestionResponse.mk (QuestionResponse.id v)
                                         (QuestionResponse.questionId v) value
                else v) vs = vs.
Proof.
  induction vs as [|v vs IH]; simpl; [reflexivity|].
  intros Hn. destruct (String.eqb (QuestionResponse.questionId v) id) eqn:E.
  - apply String.eqb_eq in E. tauto.
  - rewrite IH; tauto.
Qed.

End Store.

(** C4.  For every store and every call [updateStore id value]: the store
    keeps its length and, position by position, its question ids; an entry
    whose question id is [id] keeps everything but its value, which becomes
    [value]; every other entry is the same entry at the same position; the
    other signals are not touched; and when no entry has question id [id]
    the store is left as it was. *)
Theorem updateStore_frame (id value : string) (st : FormView.State) :
  let st' := FormView.updateStore id value st in
  length (FormView.values st') = length (FormView.values st) /\
  map QuestionResponse.questionId (FormView.values st') =
    map QuestionResponse.questionId (FormView.values st) /\
  (forall i v, nth_error (FormView.values st) i = Some v ->
     (QuestionResponse.questionId v = id /\
      nth_error (FormView.values st') i =
        Some (QuestionResponse.mk (QuestionResponse.id v)
                                   (QuestionResponse.questionId v) value))
     \/ (QuestionResponse.questionId v <> id /\
         nth_error (FormView.values st') i = Some v)) /\
  FormView.whenLoading st' = FormView.whenLoading st /\
  FormView.beginViewTransition st' = FormView.beginViewTransition st /\
  (In id (map QuestionResponse.questionId (FormView.values st))
   \/ FormView.values st' = FormView.values st).
Proof.
  intros st'. unfold st'. rewrite updateStore_values.
  repeat split.
  - apply length_map.
  - rewrite map_map. apply map_ext. intros v.
    now destruct (String.eqb (QuestionResponse.questionId v) id).
  - intros i v Hi. rewrite nth_error_map, Hi. simpl.
    destruct (String.eqb (QuestionResponse.questionId v) id) eqn:E.
    + left. apply String.eqb_eq in E. auto.
    + right. apply String.eqb_neq in E. auto.
  - destruct (in_dec string_dec id
                (map QuestionResponse.questionId (FormView.values st))) as [H | H].
    + now left.
    + right. now apply updateStore_absent.
Qed.

Lemma updateStore_frame_witness :
  FormView.values (FormView.updateStore "q2" "B" Sample.store3)
    = [Sample.entry "q1" "a"; Sample.entry "q2" "B"; Sample.entry "q3" "c"] /\
  FormView.values (FormView.updateStore "q9" "B" Sample.store3)
    = [Sample.entry "q1" "a"; Sample.entry "q2" "b"; Sample.entry "q3" "c"].
Proof.
  pose (e1 := Sample.entry "q1" "a"). pose (e2 := Sample.entry "q2" "b").
  pose (e3 := Sample.entry "q3" "c"). pose (st := Sample.store3).
  fold e1 e2 e3 st. split.
  - pose proof (updateStore_frame "q2" "B" st) as (Hlen & _ & Hnth & _).
    destruct (Hnth 0%nat e1 eq_refl) as [[H _] | [_ H0]]; [discriminate H|].
    destruct (Hnth 1%nat e2 eq_refl) as [[_ H1] | [H _]]; [|now contradiction H].
    destruct (Hnth 2%nat e3 eq_refl) as [[H _] | [_ H2]]; [discriminate H|].
    destruct (FormView.values (FormView.updateStore "q2" "B" st))
      as [|x0 [|x1 [|x2 [|x3 l]]]]; try discriminate Hlen.
    simpl in H0, H1, H2.
    injection H0 as ->. injection H1 as ->. injection H2 as ->. reflexivity.
  - pose proof (updateStore_frame "q9" "B" st) as (_ & _ & _ & _ & _ & [H | H]).
    + simpl in H. repeat (destruct H as [H | H]; [discriminate H|]). contradiction.
    + exact H.
Defined.

(** C5.  [initialiseStore] yields one entry per question, in the order of
    the questions, each with the question's id and the empty string as its
    value; three questions give exactly three such entries. *)
Theorem initialiseStore_entries (questions : list Question.t) :
  length (FormView.initialiseStore questions) = length questions /\
  map QuestionResponse.questionId (FormView.initialiseStore questions) =
    map Question.id questions /\
  Forall (fun e => QuestionResponse.value e = "" /\ QuestionResponse.id e = None)
         (FormView.initialiseStore questions) /\
  (forall q1 q2 q3, questions = [q1; q2; q3] ->
     FormView.initialiseStore questions =
       [QuestionResponse.mk None (Question.id q1) "";
        QuestionResponse.mk None (Question.id q2) "";
        QuestionResponse.mk None (Question.id q3) ""]).
Proof.
  unfold FormView.initialiseStore. repeat split.
  - apply length_map.
  - rewrite map_map. reflexivity.
  - apply Forall_forall. intros e He. apply in_map_iff in He as (q & <- & _).
    split; reflexivity.
  - intros q1 q2 q3 ->. reflexivity.
Qed.

Lemma initialiseStore_entries_witness :
  FormView.initialiseStore
    [Sample.question "q1"; Sample.question "q2"; Sample.question "q3"] =
    [Sample.entry "q1" ""; Sample.entry "q2" ""; Sample.entry "q3" ""].
Proof.
  exact (proj2 (proj2 (proj2 (initialiseStore_entries
           [Sample.question "q1"; Sample.question "q2"; Sample.question "q3"])))
           (Sample.question "q1") (Sample.question "q2") (Sample.question "q3")
           eq_refl).
Defined.

(** ** Requests handed to fetch are never changed afterwards *)
Section RequestLog.
Context {S : Type}.

Lemma start_requests {A : Type} (m : Async S A) :
  forall w, exists extra, requests (snd (start m w)) = (requests w ++ extra)%list.
Proof.
  induction m as [a | e | l k IH | k IH | g k IH | cb ms k IH | req k IH | resp k IH];
    intros w; simpl.
  - exists []. now rewrite app_nil_r.
  - exists []. now rewrite app_nil_r.
  - destruct (IH (mkWorld (state w) (console w ++ [l]) (requests w) (timers w)))
      as [extra H]. now exists extra.
  - apply IH.
  - destruct (IH (mkWorld (g (state w)) (console w) (requests w) (timers w)))
      as [extra H]. now exists extra.
  - destruct (IH (mkWorld (state w) (console w) (requests w) (timers w ++ [(ms, cb)])))
      as [extra H]. now exists extra.
  - now exists [req].
  - exists []. now rewrite app_nil_r.
Qed.

Lemma enter_requests (m : Async S unit) (w : World S)
  (rest : list (FetchResult -> Async S unit)) :
  exists extra, requests (world (enter m w rest)) = (requests w ++ extra)%list.
Proof.
  unfold enter. destruct (start_requests m w) as [extra H].
  destruct (start m w) as [[r | k] w']; simpl in *; now exists extra.
Qed.

Lemma step_requests (sys : System S) (ev : Event S) :
  exists extra,
    requests (world (step sys ev)) = (requests (world sys) ++ extra)%list.
Proof.
  destruct ev as [h | r | ]; simpl.
  - apply enter_requests.
  - destruct (waiting sys) as [|k rest].
    + exists []. now rewrite app_nil_r.
    + apply enter_requests.
  - destruct (timers (world sys)) as [|[ms cb] rest]; simpl;
      exists []; now rewrite app_nil_r.
Qed.

Lemma steps_requests (evs : list (Event S)) :
  forall sys, exists extra,
    requests (world (steps sys evs)) = (requests (world sys) ++ extra)%list.
Proof.
  unfold steps. induction evs as [|ev evs IH]; intros sys; simpl.
  - exists []. now rewrite app_nil_r.
  - destruct (IH (step sys ev)) as [extra2 H2].
    destruct (step_requests sys ev) as [extra1 H1].
    exists (extra1 ++ extra2)%list. now rewrite H2, H1, app_assoc.
Qed.

End RequestLog.

(** C3, as the specification words it: the form response built by
    [submitForm] is a copy of the store, so that an [updateStore] that runs
    while the request is pending does not change what the form response
    shows.  It is not a copy: the object holds the store itself, and shows
    the update. *)
Lemma form_response_is_not_a_copy :
  ~ (forall (JSON_stringify : string -> list QuestionResponse.t -> string)
            (VITE_PUBLIC_SEC : string) (data : TypeForm.t)
            (sys : System FormView.State) (id value : string),
       let submitted :=
         step sys (Handler (FormView.submitFormF JSON_stringify data VITE_PUBLIC_SEC)) in
       let edited :=
         step submitted (Handler (Modify (FormView.updateStore id value) (Ret tt))) in
       FormView.readFormResponse (state (world edited)) (FormView.formResponse data)
       = FormView.readFormResponse (state (world submitted)) (FormView.formResponse data)).
Proof.
  intros H.
  specialize (H Sample.stringify "key" Sample.openForm
                (mkSystem (newWorld (FormView.init Sample.openForm)) []) "q1" "x").
  vm_compute in H. discriminate H.
Qed.

(** C3, amended.  The form response built at submit time holds a reference
    to the store, not a copy: read later, it shows the store as it is then.
    What is handed to [fetch] is its serialisation, taken before the
    handler first waits, of the store as it is at submit time; whatever
    runs afterwards (updates, other handlers, the settling of the request)
    leaves that request as it was handed over.  This holds for the
    [submitForm] of both form views. *)
Theorem submitted_payload_is_fixed
  (JSON_stringify : string -> list QuestionResponse.t -> string)
  (data : TypeForm.t) (submitUrl VITE_PUBLIC_SEC : string)
  (sys : System FormView.State) (evs : list (Event FormView.State)) :
  let values0 := FormView.values (state (world sys)) in
  (forall st, FormView.readFormResponse st (FormView.formResponse data)
              = (TypeForm.id data, FormView.values st)) /\
  (exists later,
     requests (world (steps sys
        (Handler (FormView.submitForm JSON_stringify data submitUrl) :: evs)))
     = (requests (world sys)
        ++ FormView.submitRequest JSON_stringify data submitUrl values0 :: later)%list) /\
  (exists later,
     requests (world (steps sys
        (Handler (FormView.submitFormF JSON_stringify data VITE_PUBLIC_SEC) :: evs)))
     = (requests (world sys)
        ++ FormRespond.request JSON_stringify VITE_PUBLIC_SEC
             (FormView.formResponse data) values0 :: later)%list).
Proof.
  intros values0. split; [reflexivity|]. split.
  - destruct (steps_requests evs
      (step sys (Handler (FormView.submitForm JSON_stringify data submitUrl))))
      as [later H].
    exists later.
    change (steps sys (?h :: evs)) with (steps (step sys h) evs).
    rewrite H. simpl. now rewrite <- app_assoc.
  - destruct (steps_requests evs
      (step sys (Handler (FormView.submitFormF JSON_stringify data VITE_PUBLIC_SEC))))
      as [later H].
    exists later.
    change (steps sys (?h :: evs)) with (steps (step sys h) evs).
    rewrite H. simpl. now rewrite <- app_assoc.
Qed.

(** ** The network calls *)

(** What [formRespond] does, for every outcome of the network: it hands
    exactly one request to [fetch] and answers with a boolean, [true]
    exactly when the server responds with status 204; for any other status
    it logs the status and answers [false], and for a network failure it
    logs the error and answers [false].  It leaves the component state and
    the timers as they were. *)
Theorem formRespond_outcome {S : Type}
  (deref : S -> ArrayRef -> list QuestionResponse.t)
  (JSON_stringify : string -> list QuestionResponse.t -> string)
  (VITE_PUBLIC_SEC : string)
  (net : Request -> FetchResult) (data : FormResponse.t) (w : World S) :
  let req := FormRespond.request JSON_stringify VITE_PUBLIC_SEC data
               (deref (state w) (FormResponse.questionResponses data)) in
  let out := run net (FormRespond.formRespond deref JSON_stringify VITE_PUBLIC_SEC data) w in
  requests (snd out) = (requests w ++ [req])%list /\
  state (snd out) = state w /\
  timers (snd out) = timers w /\
  (fst out = inr true <-> exists resp, net req = inr resp /\ status resp = 204%Z) /\
  ((exists resp, net req = inr resp /\ status resp = 204%Z /\ fst out = inr true /\
      console (snd out) =
        (console w ++ [LogString (FormRespond.fetchUrl data); LogNumber 204])%list)
   \/ (exists resp, net req = inr resp /\ status resp <> 204%Z /\ fst out = inr false /\
         console (snd out) =
           (console w ++ [LogString (FormRespond.fetchUrl data);
                          LogNumber (status resp)])%list)
   \/ (exists e, net req = inl e /\ fst out = inr false /\
         console (snd out) =
           (console w ++ [LogString (FormRespond.fetchUrl data); LogString e])%list)).
Proof.
  intros req out. unfold out, FormRespond.formRespond. simpl. fold req.
  destruct (net req) as [e | resp] eqn:E; simpl.
  - repeat split; try reflexivity.
    + discriminate.
    + intros (resp & H & _). discriminate H.
    + right. right. exists e. rewrite <- app_assoc. auto.
  - destruct (Z.eqb (status resp) 204) eqn:Es.
    + apply Z.eqb_eq in Es. repeat split; try reflexivity.
      * intros _. now exists resp.
      * left. exists resp. rewrite <- app_assoc, Es. auto.
    + apply Z.eqb_neq in Es. repeat split; try reflexivity.
      * discriminate.
      * intros (resp' & H & Hs). congruence.
      * right. left. exists resp. rewrite <- app_assoc. auto.
Qed.

Lemma formRespond_outcome_witness :
  fst (run (Sample.respondsWith 204 (inl "no body"))
           (FormRespond.formRespond FormView.deref Sample.stringify "key"
              (FormView.formResponse Sample.openForm))
           (newWorld Sample.store3)) = inr true.
Proof.
  apply (proj1 (proj2 (proj2 (proj2 (formRespond_outcome FormView.deref
           Sample.stringify "key" (Sample.respondsWith 204 (inl "no body"))
           (FormView.formResponse Sample.openForm) (newWorld Sample.store3)))))).
  exists (mkResponse 204 (inl "no body")). split; reflexivity.
Defined.

(** C7.  The documentation of [formRespond] promises [true] when the server
    returns status 200, and the specification counts 200 among the success
    statuses.  The code answers [false] to every response with status 200,
    whatever its body, the form response and the store: it compares the
    status with 204 only.  It logs the status and makes that one request. *)
Theorem formRespond_fails_on_status_200 {S : Type}
  (deref : S -> ArrayRef -> list QuestionResponse.t)
  (JSON_stringify : string -> list QuestionResponse.t -> string)
  (VITE_PUBLIC_SEC : string)
  (data : FormResponse.t) (w : World S) (body : Exn + TypeForm.t) :
  let out := run (fun _ => inr (mkResponse 200 body))
                 (FormRespond.formRespond deref JSON_stringify VITE_PUBLIC_SEC data) w in
  fst out = inr false /\
  requests (snd out) =
    (requests w ++ [FormRespond.request JSON_stringify VITE_PUBLIC_SEC data
                      (deref (state w) (FormResponse.questionResponses data))])%list /\
  console (snd out) =
    (console w ++ [LogString (FormRespond.fetchUrl data); LogNumber 200])%list.
Proof.
  intros out. unfold out, FormRespond.formRespond. simpl.
  repeat split. now rewrite <- app_assoc.
Qed.

(** Status 200 is not a success for [formRespond]. *)
Example formRespond_status_200 :
  fst (run (Sample.respondsWith 200 (inl "no body"))
           (FormRespond.formRespond FormView.deref Sample.stringify "key"
              (FormView.formResponse Sample.openForm))
           (newWorld Sample.store3)) = inr false.
Proof. reflexivity. Qed.

(** The request carries the store as it is when [formRespond] is called. *)
Example formRespond_request :
  requests (snd (run (Sample.respondsWith 204 (inl "no body"))
           (FormRespond.formRespond FormView.deref Sample.stringify "key"
              (FormView.formResponse Sample.openForm))
           (newWorld Sample.store3)))
  = [mkRequest "https://kam-backend.vercel.app/form/respond?formId=f" PUT
       [("aKey", "key"); ("Content-Type", "application/json")]
       (Some "f:a,b,c")].
Proof. reflexivity. Qed.

(** C8, as the specification words it: whenever the response has status 200
    and a well-formed body, the form view is shown.  It is not shown for a
    form that no longer accepts responses. *)
Lemma closed_form_is_not_shown :
  ~ (forall (net : Request -> FetchResult) (props : KMFormView.Props)
            (resp : Response) (form : TypeForm.t),
       net (KMFormView.fetchRequest props) = inr resp ->
       status resp = 200%Z -> json resp = inr form ->
       KMFormView.view
         (state (snd (run net (KMFormView.onMount props) (newWorld KMFormView.init))))
       = [KMFormView.FormViewScreen (Some form)]).
Proof.
  intros H.
  specialize (H (Sample.respondsWith 200 (inr Sample.closedForm)) Sample.props
                (mkResponse 200 (inr Sample.closedForm)) Sample.closedForm
                eq_refl eq_refl eq_refl).
  vm_compute in H. discriminate H.
Qed.

(** C8, amended.  [onMount] hands exactly one request to [fetch].  The load
    succeeds exactly when the response has status 200 and its body parses:
    then the parsed form is kept, the error flag stays unset, and the form
    view is shown when the form still accepts responses, the closed-form
    screen when it does not.  For any other status, a body that does not
    parse or a network failure, [fetchFormStructure] throws, the error is
    logged, the load-error flag is set and only the error screen is shown;
    there is no second request. *)
Theorem form_load_outcome (net : Request -> FetchResult) (props : KMFormView.Props) :
  let req := KMFormView.fetchRequest props in
  let out := run net (KMFormView.onMount props) (newWorld KMFormView.init) in
  let st := state (snd out) in
  requests (snd out) = [req] /\
  fst out = inr tt /\
  ((exists resp form,
      net req = inr resp /\ status resp = 200%Z /\ json resp = inr form /\
      fst (run net (KMFormView.fetchFormStructure props) (newWorld KMFormView.init))
        = inr form /\
      KMFormView.result st = Some form /\
      KMFormView.loadingError st = false /\
      ((TypeForm.stillAccepting form = true /\
        KMFormView.view st = [KMFormView.FormViewScreen (Some form)])
       \/ (TypeForm.stillAccepting form = false /\
           KMFormView.view st = [KMFormView.ClosedForm])))
   \/ (~ (exists resp form,
            net req = inr resp /\ status resp = 200%Z /\ json resp = inr form) /\
       (exists e,
          fst (run net (KMFormView.fetchFormStructure props) (newWorld KMFormView.init))
            = inl e /\
          In (LogString ("error" ++ e)) (console (snd out))) /\
       KMFormView.loadingError st = true /\
       KMFormView.result st = None /\
       KMFormView.view st = [KMFormView.ErrorScreen])).
Proof.
  intros req out st. unfold st, out, KMFormView.onMount, KMFormView.fetchFormStructure.
  simpl. fold req.
  destruct (net req) as [e | resp] eqn:E; simpl.
  - split; [reflexivity | split; [reflexivity | right]].
    split; [|split; [|repeat split]].
    + intros (resp & form & H & _). discriminate H.
    + exists e. simpl. auto.
  - destruct (Z.eqb (status resp) 200) eqn:Es.
    + apply Z.eqb_eq in Es. unfold json_of. simpl.
      destruct (json resp) as [e | form] eqn:Ej; simpl.
      * split; [reflexivity | split; [reflexivity | right]].
        split; [|split; [|repeat split]].
        -- intros (resp' & form & H & _ & Hj). congruence.
        -- exists e. simpl. auto.
      * split; [reflexivity | split; [reflexivity | left]].
        exists resp, form. repeat split; try assumption.
        unfold KMFormView.view. simpl.
        destruct (TypeForm.stillAccepting form); simpl; auto.
    + apply Z.eqb_neq in Es. simpl.
      split; [reflexivity | split; [reflexivity | right]].
      split; [|split; [|repeat split]].
      * intros (resp' & form & H & Hs & _). congruence.
      * exists "Error loading JSON". simpl. auto.
Qed.

Lemma form_load_outcome_witness :
  KMFormView.view
    (state (snd (run (Sample.respondsWith 200 (inr Sample.openForm))
                     (KMFormView.onMount Sample.props) (newWorld KMFormView.init))))
  = [KMFormView.FormViewScreen (Some Sample.openForm)].
Proof.
  pose (form := Sample.openForm).
  destruct (form_load_outcome (Sample.respondsWith 200 (inr Sample.openForm))
              Sample.props) as (_ & _ & [H | H]).
  - destruct H as (resp & form' & Hnet & _ & Hj & _ & _ & _ & [[_ Hv] | [Hc _]]).
    + injection Hnet as <-. injection Hj as <-. exact Hv.
    + injection Hnet as <-. injection Hj as <-. discriminate Hc.
  - destruct H as (Hn & _). exfalso. apply Hn.
    exists (mkResponse 200 (inr form)), form. repeat split.
Defined.

(** ** The text prompts *)

(** C9.  In the short-answer prompt, after every keystroke the error flag
    is set exactly when the field is empty and the question is required; it
    is unset as soon as the field is not empty; every keystroke passes the
    field's text to the store updater; and for a required question, typing
    x and deleting it takes the flag from false to false to true. *)
Theorem short_prompt_error_flag
  (props : KMShortPromptView.Props) (v : string) (st : KMShortPromptView.State) :
  let st' := KMShortPromptView.onValueChange props v st in
  (KMShortPromptView.error st' = true <->
     (v = "" /\ KMShortPromptView.required props = true)) /\
  (v <> "" -> KMShortPromptView.error st' = false) /\
  (KMShortPromptView.errorHidden props st' = negb (KMShortPromptView.error st')) /\
  KMShortPromptView.storeUpdates st' =
    (KMShortPromptView.storeUpdates st ++ [(KMShortPromptView.id props, v)])%list /\
  (KMShortPromptView.required props = true ->
   KMShortPromptView.errorTrace props ["x"; ""] KMShortPromptView.init
     = [false; false; true]).
Proof.
  intros st'. unfold st', KMShortPromptView.onValueChange. simpl.
  split; [|split; [|split; [|split]]].
  - rewrite andb_true_iff, String.eqb_eq. tauto.
  - intros H. apply String.eqb_neq in H. now rewrite H.
  - reflexivity.
  - reflexivity.
  - intros ->. reflexivity.
Qed.

Lemma short_prompt_error_flag_witness :
  KMShortPromptView.error
    (KMShortPromptView.onValueChange (Sample.shortProps true) "x"
       KMShortPromptView.init) = false /\
  KMShortPromptView.errorTrace (Sample.shortProps true) ["x"; ""]
    KMShortPromptView.init = [false; false; true].
Proof.
  destruct (short_prompt_error_flag (Sample.shortProps true) "x"
              KMShortPromptView.init)
    as (_ & Hx & _ & _ & Ht).
  split; [apply Hx; discriminate | apply Ht; reflexivity].
Defined.

(** C10.  In the long-answer prompt, after every keystroke the error flag
    is set exactly when the textarea is empty, whether or not the question
    is required; the error message is shown exactly when the flag is set
    and the question is required.  Against a short-answer prompt with the
    same [required], the two flags agree exactly when the field is not
    empty or the question is required: they differ on an empty field of a
    question that is not required. *)
Theorem long_prompt_error_flag
  (props : KMLongPromptView.Props) (sprops : KMShortPromptView.Props)
  (v : string) (st : KMLongPromptView.State) (sst : KMShortPromptView.State) :
  KMShortPromptView.required sprops = KMLongPromptView.required props ->
  let st' := KMLongPromptView.onValueChange props v st in
  let sst' := KMShortPromptView.onValueChange sprops v sst in
  (KMLongPromptView.error st' = true <-> v = "") /\
  (KMLongPromptView.errorHidden props st' = false <->
     (KMLongPromptView.error st' = true /\ KMLongPromptView.required props = true)) /\
  (KMLongPromptView.error st' = KMShortPromptView.error sst' <->
     (v <> "" \/ KMLongPromptView.required props = true)) /\
  (KMLongPromptView.errorHidden props st' = KMShortPromptView.errorHidden sprops sst').
Proof.
  intros Hreq st' sst'.
  unfold st', sst', KMLongPromptView.onValueChange, KMShortPromptView.onValueChange,
    KMLongPromptView.errorHidden, KMShortPromptView.errorHidden. simpl.
  rewrite Hreq. split; [|split; [|split]].
  - apply String.eqb_eq.
  - destruct (String.eqb v ""), (KMLongPromptView.required props);
      simpl; split; intros H; try discriminate H; try (split; reflexivity);
      destruct H as [H1 H2]; try discriminate H1; discriminate H2.
  - destruct (String.eqb v "") eqn:E.
    + apply String.eqb_eq in E. subst v.
      destruct (KMLongPromptView.required props); simpl; split; intros H;
        try discriminate H; try reflexivity; auto.
      destruct H as [H | H]; [now contradiction H | discriminate H].
    + apply String.eqb_neq in E. simpl. split; auto.
  - destruct (String.eqb v ""), (KMLongPromptView.required props); reflexivity.
Qed.

Lemma long_prompt_error_flag_witness :
  KMLongPromptView.error
    (KMLongPromptView.onValueChange (Sample.longProps false) ""
       KMLongPromptView.init) = true /\
  KMShortPromptView.error
    (KMShortPromptView.onValueChange (Sample.shortProps false) ""
       KMShortPromptView.init) = false /\
  KMLongPromptView.errorHidden (Sample.longProps false)
    (KMLongPromptView.onValueChange (Sample.longProps false) ""
       KMLongPromptView.init) = true.
Proof.
  pose (props := Sample.longProps false). pose (sprops := Sample.shortProps false).
  fold props sprops.
  destruct (long_prompt_error_flag props sprops "" KMLongPromptView.init
              KMShortPromptView.init eq_refl) as (H1 & H2 & H3 & H4).
  split; [now apply H1 | split].
  - destruct (KMShortPromptView.error
      (KMShortPromptView.onValueChange sprops "" KMShortPromptView.init)) eqn:E;
      [|reflexivity].
    exfalso. destruct (proj1 H3) as [H | H].
    + rewrite (proj2 H1 eq_refl). reflexivity.
    + now apply H.
    + discriminate H.
  - destruct (KMLongPromptView.errorHidden props
      (KMLongPromptView.onValueChange props "" KMLongPromptView.init)) eqn:E;
      [reflexivity|].
    destruct (proj1 H2 eq_refl) as [_ H]. discriminate H.
Defined.

(** ** Option ids of any shape *)
Section AnyPattern.

Lemma startsWith_prefix (s p : string) :
  startsWith s p = true <-> exists r, s = p ++ r.
Proof.
  revert s. induction p as [|c p IH]; intros s; simpl.
  - split; [intros _; now exists s | reflexivity].
  - destruct s as [|d s].
    + split; [discriminate | intros (r & H); discriminate H].
    + rewrite andb_true_iff, Ascii.eqb_eq, IH. split.
      * intros (-> & r & ->). now exists r.
      * intros (r & H). injection H as -> ->. split; [reflexivity | now exists r].
Qed.

Lemma drop_prefix (p r : string) : drop (String.length p) (p ++ r) = r.
Proof. induction p as [|c p IH]; simpl; [reflexivity | exact IH]. Qed.

Lemma includes_substring (s p : string) :
  includes s p = true <-> exists l r, s = l ++ p ++ r.
Proof.
  induction s as [|c s IH]; simpl.
  - rewrite orb_false_r, startsWith_prefix. split.
    + intros (r & H). now exists "", r.
    + intros (l & r & H). destruct l as [|d l]; [now exists r | discriminate H].
  - rewrite orb_true_iff, startsWith_prefix, IH. split.
    + intros [(r & H) | (l & r & H)].
      * now exists "", r.
      * exists (String c l), r. simpl. now rewrite H.
    + intros (l & r & H). destruct l as [|d l].
      * left. now exists r.
      * right. injection H as _ H. now exists l, r.
Qed.

Lemma replace_eq (s p x : string) :
  replace s p x =
  if startsWith s p then x ++ drop (String.length p) s
  else match s with
       | EmptyString => EmptyString
       | String c s' => String c (replace s' p x)
       end.
Proof. destruct s; reflexivity. Qed.

(** [replace] cuts out the leftmost occurrence of the pattern. *)
Lemma replace_leftmost (s p x : string) :
  includes s p = true ->
  exists l r, s = l ++ p ++ r /\ replace s p x = l ++ x ++ r /\
              forall l' r', s = l' ++ p ++ r' -> (String.length l <= String.length l')%nat.
Proof.
  induction s as [|c s IH]; intros Hin; rewrite replace_eq.
  - simpl in Hin. rewrite orb_false_r in Hin. rewrite Hin.
    apply startsWith_prefix in Hin as (r & H).
    pose proof (drop_prefix p r) as D. rewrite <- H in D. rewrite D.
    exists "", r. repeat split; [exact H | intros; simpl; lia].
  - destruct (startsWith (String c s) p) eqn:E.
    + apply startsWith_prefix in E as (r & H).
      pose proof (drop_prefix p r) as D. rewrite <- H in D. rewrite D.
      exists "", r. repeat split; [exact H | intros; simpl; lia].
    + simpl in Hin. rewrite E in Hin. simpl in Hin.
      destruct (IH Hin) as (l & r & Hs & Hr & Hl).
      exists (String c l), r. simpl. rewrite Hr, <- Hs.
      repeat split. intros l' r' H'.
      destruct l' as [|d l'].
      * exfalso. assert (T : startsWith (String c s) p = true)
          by (apply startsWith_prefix; now exists r').
        rewrite T in E. discriminate E.
      * injection H' as _ H'. simpl. apply le_n_S. now apply (Hl l' r').
Qed.

Lemma replace_no_match (s p x : string) :
  includes s p = false -> replace s p x = s.
Proof.
  induction s as [|c s IH]; simpl; intros Hin.
  - rewrite orb_false_r in Hin. now rewrite Hin.
  - apply orb_false_iff in Hin as [H1 H2]. now rewrite H1, IH.
Qed.

End AnyPattern.

(** X1.  For an option id of any shape, a click in multi-choice mode cuts
    the leftmost occurrence of the id, as a substring, out of the selection
    when there is one, and appends the id otherwise. *)
Theorem onClickListener_substring (id s : string) :
  (exists l r, s = l ++ id ++ r /\
     (forall l' r', s = l' ++ id ++ r' -> (String.length l <= String.length l')%nat) /\
     onClickListener true id s = l ++ r)
  \/ ((forall l r, s <> l ++ id ++ r) /\ onClickListener true id s = s ++ id).
Proof.
  unfold onClickListener. destruct (includes s id) eqn:E.
  - left. destruct (replace_leftmost s id "" E) as (l & r & Hs & Hr & Hl).
    exists l, r. auto.
  - right. split; [|reflexivity]. intros l r H.
    assert (T : includes s id = true) by (apply includes_substring; now exists l, r).
    rewrite T in E. discriminate E.
Qed.

Lemma onClickListener_substring_witness :
  exists l r, "3124" = l ++ "12" ++ r /\ onClickListener true "12" "3124" = l ++ r.
Proof.
  destruct (onClickListener_substring "12" "3124") as [(l & r & Hs & _ & Hr) | [Hn _]].
  - now exists l, r.
  - exfalso. now apply (Hn "3" "4").
Defined.

(** ** The check marks of the buttons *)
Section CheckMarks.

Lemma checked_single (s : string) (c : ascii) :
  checked s (String c "") = true <-> In c (chars s).
Proof. apply includes_single. Qed.

Lemma bool_eq_iff (a b : bool) : (a = true <-> b = true) -> a = b.
Proof.
  destruct a, b; intros [H1 H2]; try reflexivity.
  - symmetry. now apply H1.
  - now apply H2.
Qed.

Lemma length_append (s t : string) :
  String.length (s ++ t) = (String.length s + String.length t)%nat.
Proof. induction s as [|c s IH]; simpl; [reflexivity | now rewrite IH]. Qed.

(** A click on a valid id never leaves the selection as it was. *)
Lemma click_changes (multi : bool) (a s : string) :
  validId a = true -> onClickListener multi a s <> s.
Proof.
  intros Ha. destruct (validId_inv a Ha) as (c & -> & _). destruct multi.
  - destruct (click_multi_cases s c) as [(l & r & Hs & _ & Hr) | [_ Hr]];
      rewrite Hr; intros E; apply (f_equal String.length) in E.
    + rewrite Hs in E. rewrite !length_append in E. simpl in E. lia.
    + rewrite length_append in E. simpl in E. lia.
  - unfold onClickListener. destruct (String.eqb s (String c "")) eqn:E.
    + apply String.eqb_eq in E. subst s. discriminate.
    + apply String.eqb_neq in E. congruence.
Qed.

End CheckMarks.

(** X2.  In multi-choice mode, from a reachable selection, a click on the
    button of a valid id flips the check mark of that button and leaves the
    check mark of every other button as it was. *)
Theorem click_flips_own_check_mark (s a b : string) :
  reachable true s -> validId a = true -> validId b = true ->
  checked (onClickListener true a s) a = negb (checked s a) /\
  (b <> a -> checked (onClickListener true a s) b = checked s b).
Proof.
  intros Hr Ha Hb. apply reachable_NoDup in Hr.
  destruct (validId_inv a Ha) as (c & -> & _).
  destruct (validId_inv b Hb) as (d & -> & _).
  destruct (click_multi_cases s c) as [(l & r & Hs & Hl & H1) | [Hn H1]];
    rewrite H1.
  - assert (Hlr : ~ In c (chars (l ++ r))).
    { subst s. rewrite chars_app in *. simpl in Hr. now apply NoDup_remove_2 in Hr. }
    split.
    + replace (checked s (String c "")) with true.
      * simpl. now apply includes_single_false.
      * symmetry. apply checked_single. subst s. rewrite chars_app. simpl. apply in_elt.
    + intros Hne. apply bool_eq_iff. rewrite !checked_single. subst s.
      rewrite !chars_app. simpl. rewrite !in_app_iff. simpl.
      split; [tauto|]. intros [H | [H | H]]; auto. congruence.
  - split.
    + replace (checked s (String c "")) with false.
      * simpl. apply checked_single. rewrite chars_app. apply in_or_app. right. now left.
      * symmetry. now apply includes_single_false.
    + intros Hne. apply bool_eq_iff. rewrite !checked_single, chars_app, in_app_iff.
      simpl. split; [|tauto]. intros [H | [H | []]]; auto. congruence.
Qed.

Lemma click_flips_own_check_mark_witness :
  checked (onClickListener true "0" "02") "0" = negb (checked "02" "0") /\
  checked (onClickListener true "0" "02") "2" = checked "02" "2".
Proof.
  assert (R : reachable true "02").
  { apply (reachable_click true "0" "2"); [|reflexivity].
    apply (reachable_click true "" "0"); [|reflexivity].
    apply reachable_init. }
  destruct (click_flips_own_check_mark "02" "0" "2" R eq_refl eq_refl) as [H1 H2].
  split; [exact H1 | apply H2; discriminate].
Defined.

(** X3.  In single-choice mode, after a click on the button of a valid id
    [a], whatever the selection was, the button of a valid id [b] is checked
    exactly when [b] is [a] and [a] was not the selection before: at most
    one button is checked.  A second click on [a] leaves [a] selected
    exactly when it was selected at first, and otherwise clears the
    selection. *)
Theorem single_choice_check_marks (s a b : string) :
  validId a = true -> validId b = true ->
  (checked (onClickListener false a s) b = true <-> (b = a /\ s <> a)) /\
  ((s = a /\ onClickListener false a (onClickListener false a s) = a)
   \/ (s <> a /\ onClickListener false a (onClickListener false a s) = "")).
Proof.
  intros Ha Hb.
  destruct (validId_inv a Ha) as (c & -> & _).
  destruct (validId_inv b Hb) as (d & -> & _).
  unfold onClickListener. destruct (String.eqb s (String c "")) eqn:E.
  - apply String.eqb_eq in E. split.
    + rewrite checked_single. simpl. split; [tauto | intros [_ H]; now contradiction H].
    + left. split; [exact E | reflexivity].
  - apply String.eqb_neq in E. split.
    + rewrite checked_single. simpl. split.
      * intros [-> | []]. auto.
      * intros [H _]. injection H as ->. now left.
    + right. split; [exact E|]. now rewrite String.eqb_refl.
Qed.

Lemma single_choice_check_marks_witness :
  (checked (onClickListener false "1" "0") "1" = true <-> ("1" = "1" /\ "0" <> "1")) /\
  (("0" = "1" /\ onClickListener false "1" (onClickListener false "1" "0") = "1")
   \/ ("0" <> "1" /\ onClickListener false "1" (onClickListener false "1" "0") = "")).
Proof. exact (single_choice_check_marks "0" "1" "1" eq_refl eq_refl). Defined.

(** ** The choice prompt and the store updater *)
Section ChoiceEffect.
Import KMChoicePromptView.

Lemma mounted_settled (props : Props) : settled props (mounted props).
Proof. repeat split. constructor. Qed.

Lemma click_step (props : Props) (a : string) (st : State) :
  settled props st ->
  let v := onClickListener (multiChoiceMode props) a (selectedState st) in
  selectedState (click props a st) = v /\
  settled props (click props a st) /\
  storeUpdates (click props a st) =
    (storeUpdates st ++ (if String.eqb v (selectedState st) then [] else [(id props, v)]))%list.
Proof.
  intros (Hp & Hf & Hl) v. unfold click, setSelectedState. fold v.
  destruct (String.eqb v (selectedState st)) eqn:E.
  - apply String.eqb_eq in E. rewrite app_nil_r.
    repeat split; auto.
  - unfold effect. simpl. rewrite Hp, E. simpl.
    repeat split.
    + apply Forall_app. split; [assumption | now constructor].
    + simpl. rewrite map_app. simpl. apply last_last.
Qed.

Lemma clickAll_settled (props : Props) (ids : list string) :
  forall st, settled props st ->
    settled props (clickAll props ids st) /\
    selectedState (clickAll props ids st)
      = clicks (multiChoiceMode props) ids (selectedState st).
Proof.
  unfold clickAll, clicks.
  induction ids as [|a ids IH]; intros st Hs; simpl; [now split|].
  destruct (click_step props a st Hs) as (Hv & Hs' & _).
  destruct (IH _ Hs') as [H1 H2]. split; [exact H1|]. now rewrite H2, Hv.
Qed.

Lemma clickAll_updates (props : Props) (ids : list string) :
  forallb validId ids = true ->
  forall st, settled props st ->
    storeUpdates (clickAll props ids st) =
      (storeUpdates st ++
       map (fun s => (id props, s))
           (selections (multiChoiceMode props) ids (selectedState st)))%list.
Proof.
  unfold clickAll.
  induction ids as [|a ids IH]; intros Hv st Hs; simpl.
  - now rewrite app_nil_r.
  - simpl in Hv. apply andb_true_iff in Hv as [Ha Hv].
    destruct (click_step props a st Hs) as (Hsel & Hs' & Hu).
    rewrite (IH Hv _ Hs'), Hu, Hsel.
    pose proof (click_changes (multiChoiceMode props) a (selectedState st) Ha) as Hc.
    apply String.eqb_neq in Hc. rewrite Hc. now rewrite <- app_assoc.
Qed.

End ChoiceEffect.

(** X4.  A choice prompt, after any series of clicks since it was rendered:
    its selection is what the clicks make of the empty selection; the
    variable [prevSelectState] has caught up with it; every call to the
    store updater carried the id of the prompt; and the value of the last
    call is the selection (no call has been made only while the selection
    is still empty). *)
Theorem choice_prompt_store_sync
  (props : KMChoicePromptView.Props) (ids : list string) :
  let st := KMChoicePromptView.clickAll props ids (KMChoicePromptView.mounted props) in
  KMChoicePromptView.selectedState st
    = clicks (KMChoicePromptView.multiChoiceMode props) ids "" /\
  KMChoicePromptView.prevSelectState st = KMChoicePromptView.selectedState st /\
  Forall (fun c => fst c = KMChoicePromptView.id props)
         (KMChoicePromptView.storeUpdates st) /\
  last (map snd (KMChoicePromptView.storeUpdates st)) ""
    = KMChoicePromptView.selectedState st.
Proof.
  intros st.
  destruct (clickAll_settled props ids _ (mounted_settled props)) as [(H1 & H2 & H3) H4].
  repeat split; assumption.
Qed.

(** X5.  A choice prompt whose buttons have valid ids calls the store
    updater exactly once per click, with the selection that click
    produced: the calls are the selections after each click, in order. *)
Theorem choice_prompt_one_update_per_click
  (props : KMChoicePromptView.Props) (ids : list string) :
  forallb validId ids = true ->
  KMChoicePromptView.storeUpdates
    (KMChoicePromptView.clickAll props ids (KMChoicePromptView.mounted props))
  = map (fun s => (KMChoicePromptView.id props, s))
        (selections (KMChoicePromptView.multiChoiceMode props) ids "").
Proof.
  intros Hv.
  now rewrite (clickAll_updates props ids Hv _ (mounted_settled props)).
Qed.

Lemma choice_prompt_one_update_per_click_witness :
  KMChoicePromptView.storeUpdates
    (KMChoicePromptView.clickAll
       (KMChoicePromptView.mkProps "q1" "prompt" None true [] None (Some true))
       ["0"; "2"; "0"]
       (KMChoicePromptView.mounted
          (KMChoicePromptView.mkProps "q1" "prompt" None true [] None (Some true))))
  = [("q1", "0"); ("q1", "02"); ("q1", "2")].
Proof.
  exact (choice_prompt_one_update_per_click
           (KMChoicePromptView.mkProps "q1" "prompt" None true [] None (Some true))
           ["0"; "2"; "0"] eq_refl).
Defined.

(** ** Updates of the store, one after the other *)
Section StoreCompose.
Import FormView.

Lemma updateStore_eq (id value : string) (st : State) :
  updateStore id value st =
  mkState (map (fun v => if String.eqb (QuestionResponse.questionId v) id
                         then QuestionResponse.mk (QuestionResponse.id v)
                                (QuestionResponse.questionId v) value
                         else v) (values st))
          (whenLoading st) (beginViewTransition st).
Proof. reflexivity. Qed.

End StoreCompose.

(** X6.  Two updates of the store in a row: with the same question id the
    later value wins, and the first update might as well not have been
    made; so an update repeated changes nothing more.  With different
    question ids the order of the two updates does not matter. *)
Theorem updateStore_compose (a b v w : string) (st : FormView.State) :
  FormView.updateStore a w (FormView.updateStore a v st) = FormView.updateStore a w st /\
  FormView.updateStore a v (FormView.updateStore a v st) = FormView.updateStore a v st /\
  (a <> b ->
   FormView.updateStore a v (FormView.updateStore b w st)
   = FormView.updateStore b w (FormView.updateStore a v st)).
Proof.
  assert (L : forall x y, FormView.updateStore a y (FormView.updateStore a x st)
                          = FormView.updateStore a y st).
  { intros x y. rewrite !updateStore_eq. simpl. f_equal.
    rewrite map_map. apply map_ext. intros e.
    destruct (String.eqb (QuestionResponse.questionId e) a) eqn:E; simpl;
      rewrite E; reflexivity. }
  split; [apply L | split; [apply L|]].
  intros Hne. rewrite !updateStore_eq. simpl. f_equal.
  rewrite !map_map. apply map_ext. intros e.
  destruct (String.eqb (QuestionResponse.questionId e) a) eqn:Ea;
    destruct (String.eqb (QuestionResponse.questionId e) b) eqn:Eb;
    simpl; rewrite ?Ea, ?Eb; try reflexivity.
  apply String.eqb_eq in Ea, Eb. congruence.
Qed.

Lemma updateStore_compose_witness :
  FormView.updateStore "q1" "x" (FormView.updateStore "q3" "y" Sample.store3)
  = FormView.updateStore "q3" "y" (FormView.updateStore "q1" "x" Sample.store3).
Proof.
  apply (proj2 (proj2 (updateStore_compose "q1" "q3" "x" "y" Sample.store3))).
  discriminate.
Defined.

(** ** The text prompts over a series of keystrokes *)

(** X7.  A text prompt shows no error before the first keystroke, however
    empty its field is.  After a series of keystrokes the error flag
    depends on the last one only: in the short prompt it is set exactly
    when the field was then empty and the question is required, in the long
    prompt exactly when the field was then empty.  Every keystroke was
    passed to the store updater, in order, under the id of the prompt. *)
Theorem text_prompt_after_keystrokes
  (sprops : KMShortPromptView.Props) (lprops : KMLongPromptView.Props)
  (texts : list string) :
  let sst := fold_left (fun st v => KMShortPromptView.onValueChange sprops v st)
                       texts KMShortPromptView.init in
  let lst := fold_left (fun st v => KMLongPromptView.onValueChange lprops v st)
                       texts KMLongPromptView.init in
  (KMShortPromptView.error sst = true <->
     (texts <> [] /\ last texts "" = "" /\ KMShortPromptView.required sprops = true)) /\
  (KMLongPromptView.error lst = true <-> (texts <> [] /\ last texts "" = "")) /\
  KMShortPromptView.storeUpdates sst
    = map (fun v => (KMShortPromptView.id sprops, v)) texts /\
  KMLongPromptView.storeUpdates lst
    = map (fun v => (KMLongPromptView.id lprops, v)) texts.
Proof.
  intros sst lst. unfold sst, lst. clear sst lst.
  induction texts as [|v texts IH] using rev_ind.
  - simpl. repeat split; try discriminate; intros [H _]; now contradiction H.
  - rewrite !fold_left_app. simpl. rewrite last_last, !map_app. simpl.
    destruct IH as (_ & _ & Hs & Hl). rewrite Hs, Hl.
    rewrite andb_true_iff, !String.eqb_eq.
    assert (Hne : (texts ++ [v])%list <> []) by (destruct texts; discriminate).
    split; [tauto | split; [tauto | split; reflexivity]].
Qed.

Lemma text_prompt_after_keystrokes_witness :
  KMShortPromptView.error
    (fold_left (fun st v => KMShortPromptView.onValueChange (Sample.shortProps true) v st)
               ["a"; "ab"; "a"; ""] KMShortPromptView.init) = true.
Proof.
  apply (proj1 (text_prompt_after_keystrokes (Sample.shortProps true)
                  (Sample.longProps true) ["a"; "ab"; "a"; ""])).
  repeat split. discriminate.
Defined.

(** ** The screens of KMFormView *)

(** X8.  Whatever the three signals hold, KMFormView shows exactly one of
    its four screens: the error screen when the load-error flag is set,
    whatever the other two say; else the loading screen while the data is
    loading; else the closed-form screen or the form view. *)
Theorem view_shows_one_screen (st : KMFormView.State) :
  (exists screen, KMFormView.view st = [screen]) /\
  (KMFormView.view st = [KMFormView.ErrorScreen]
     <-> KMFormView.loadingError st = true) /\
  (KMFormView.view st = [KMFormView.LoadingScreen]
     <-> (KMFormView.loadingError st = false /\ KMFormView.loadingData st = true)) /\
  (KMFormView.view st = [KMFormView.ClosedForm]
     <-> (KMFormView.loadingError st = false /\ KMFormView.loadingData st = false /\
          KMFormView.closedForm st = true)) /\
  (KMFormView.view st = [KMFormView.FormViewScreen (KMFormView.result st)]
     <-> (KMFormView.loadingError st = false /\ KMFormView.loadingData st = false /\
          KMFormView.closedForm st = false)).
Proof.
  destruct st as [[|] [|] [|] res]; unfold KMFormView.view; simpl;
    (split; [eexists; reflexivity|]);
    intuition (try discriminate; auto).
Qed.

(** X9.  While the request for the form definition is pending, KMFormView
    shows the loading screen, one request has been handed to [fetch] and
    the rest of [onMount] waits.  When the request settles with a response
    of status 200, [onMount] waits once more, for the body to be read, and
    the loading screen stays; when it settles in any other way the handler
    is finished and the error screen is shown.  Once the body too has
    settled, whatever it holds, nothing waits, no other request has been
    made, the loading screen is gone, and the state is the one a network
    that answers at once leaves behind. *)
Theorem loading_screen_until_settled (props : KMFormView.Props) (r r' : FetchResult) :
  let pending := step (mkSystem (newWorld KMFormView.init) [])
                      (Handler (KMFormView.onMount props)) in
  let settled := step pending (Settle r) in
  let done := step settled (Settle r') in
  KMFormView.view (state (world pending)) = [KMFormView.LoadingScreen] /\
  requests (world pending) = [KMFormView.fetchRequest props] /\
  length (waiting pending) = 1%nat /\
  ((exists resp, r = inr resp /\ status resp = 200%Z /\
      length (waiting settled) = 1%nat /\
      requests (world settled) = [KMFormView.fetchRequest props] /\
      KMFormView.view (state (world settled)) = [KMFormView.LoadingScreen])
   \/ ((forall resp, r = inr resp -> status resp <> 200%Z) /\
       waiting settled = [] /\
       KMFormView.view (state (world settled)) = [KMFormView.ErrorScreen])) /\
  waiting done = [] /\
  requests (world done) = [KMFormView.fetchRequest props] /\
  KMFormView.view (state (world done)) <> [KMFormView.LoadingScreen] /\
  world done = snd (run (fun _ => r) (KMFormView.onMount props)
                        (newWorld KMFormView.init)).
Proof.
  intros pending settled done. unfold done, settled, pending.
  split; [reflexivity | split; [reflexivity | split; [reflexivity|]]].
  destruct r as [e | resp].
  - (* the request fails *)
    split; [right; repeat split; intros resp H; discriminate H|].
    repeat split. discriminate.
  - destruct (Z.eqb (status resp) 200) eqn:Es.
    + (* status 200: the body is still to be read *)
      apply Z.eqb_eq in Es. split.
      * left. exists resp. split; [reflexivity | split; [exact Es|]].
        simpl. unfold enter. simpl. apply Z.eqb_eq in Es. rewrite Es. simpl.
        repeat split.
      * simpl. unfold enter. simpl. apply Z.eqb_eq in Es. rewrite Es. simpl.
        destruct (json resp) as [e | form]; simpl; repeat split; try discriminate.
        unfold KMFormView.view. simpl.
        destruct (TypeForm.stillAccepting form); discriminate.
    + (* any other status *)
      split.
      * right. split.
        -- intros resp' H. injection H as <-. now apply Z.eqb_neq.
        -- simpl. unfold enter. simpl. rewrite Es. simpl. split; reflexivity.
      * simpl. unfold enter. simpl. rewrite Es. simpl. repeat split. discriminate.
Qed.

Lemma loading_screen_until_settled_witness :
  KMFormView.view (state (world
    (step (step (mkSystem (newWorld KMFormView.init) [])
                (Handler (KMFormView.onMount Sample.props)))
          (Settle (inr (mkResponse 200 (inr Sample.openForm)))))))
  = [KMFormView.LoadingScreen] /\
  KMFormView.view (state (world
    (step (step (step (mkSystem (newWorld KMFormView.init) [])
                      (Handler (KMFormView.onMount Sample.props)))
                (Settle (inr (mkResponse 200 (inr Sample.openForm)))))
          (Settle (inr (mkResponse 200 (inr Sample.openForm)))))))
  <> [KMFormView.LoadingScreen].
Proof.
  destruct (loading_screen_until_settled Sample.props
              (inr (mkResponse 200 (inr Sample.openForm)))
              (inr (mkResponse 200 (inr Sample.openForm))))
    as (_ & _ & _ & [H | H] & _ & _ & Hd & _).
  - destruct H as (resp & _ & _ & _ & _ & Hv). split; [exact Hv | exact Hd].
  - exfalso. destruct H as (Hn & _).
    now apply (Hn (mkResponse 200 (inr Sample.openForm)) eq_refl).
Defined.

(** ** Submitting *)

(** X10.  The submit handler of FFormView never throws and never looks at
    what [formRespond] answered: whatever the network does, also when the
    request fails, it hands one request to [fetch], leaves the loading flag
    set, leaves the store as it was, and sets the one-second timer whose
    callback begins the transition to the end screen. *)
Theorem submitFormF_always_proceeds
  (JSON_stringify : string -> list QuestionResponse.t -> string)
  (data : TypeForm.t) (VITE_PUBLIC_SEC : string)
  (net : Request -> FetchResult) (w : World FormView.State) :
  let out := run net (FormView.submitFormF JSON_stringify data VITE_PUBLIC_SEC) w in
  fst out = inr tt /\
  requests (snd out) =
    (requests w ++ [FormRespond.request JSON_stringify VITE_PUBLIC_SEC
                      (FormView.formResponse data) (FormView.values (state w))])%list /\
  state (snd out) = FormView.setWhenLoading true (state w) /\
  timers (snd out) = (timers w ++ [(1000%Z, FormView.setBeginViewTransition true)])%list.
Proof.
  intros out. unfold out, FormView.submitFormF, FormRespond.formRespond. simpl.
  destruct (net _) as [e | resp]; simpl; repeat split.
Qed.

(** X11.  The submit handler of KMFormView's form view hands one request to
    [fetch], a GET without a body, the serialised responses travelling in a
    header.  It sets the loading flag and leaves the store as it was.  When
    the request gets a response, of whatever status, the transition to the
    end screen begins at once; when the request fails, the handler throws,
    and the transition does not begin. *)
Theorem submitForm_outcome
  (JSON_stringify : string -> list QuestionResponse.t -> string)
  (data : TypeForm.t) (submitUrl : string)
  (net : Request -> FetchResult) (w : World FormView.State) :
  let req := FormView.submitRequest JSON_stringify data submitUrl
               (FormView.values (state w)) in
  let out := run net (FormView.submitForm JSON_stringify data submitUrl) w in
  requests (snd out) = (requests w ++ [req])%list /\
  method req = GET /\ body req = None /\
  In ("body", JSON_stringify (TypeForm.id data) (FormView.values (state w)))
     (headers req) /\
  FormView.values (state (snd out)) = FormView.values (state w) /\
  FormView.whenLoading (state (snd out)) = true /\
  timers (snd out) = timers w /\
  ((exists resp, net req = inr resp /\ fst out = inr tt /\
      FormView.beginViewTransition (state (snd out)) = true)
   \/ (exists e, net req = inl e /\ fst out = inl e /\
         FormView.beginViewTransition (state (snd out))
           = FormView.beginViewTransition (state w))).
Proof.
  intros req out. unfold out, FormView.submitForm. simpl. fold req.
  destruct (net req) as [e | resp] eqn:E; simpl.
  - repeat split; auto. right. exists e. auto.
  - repeat split; auto. left. exists resp. auto.
Qed.

(** ** Traces of form events *)
Section QuietHandlers.
Context {S : Type}.
Variable R : S -> S -> Prop.
Hypothesis R_refl : forall s, R s s.
Hypothesis R_trans : forall s1 s2 s3, R s1 s2 -> R s2 s3 -> R s1 s3.

(** A handler that writes within [R] and does not fetch runs to its end,
    hands nothing to [fetch] and leaves a state related by [R]. *)
Lemma start_quiet {A : Type} (m : Async S A) :
  Frame.allWrites R m -> Frame.noFetch m ->
  forall w, Forall (fun t => forall s, R s (snd t s)) (timers w) ->
  exists r w', start m w = (Finished r, w') /\
               R (state w) (state w') /\
               requests w' = requests w /\
               Forall (fun t => forall s, R s (snd t s)) (timers w').
Proof.
  induction m as [a | e | l k IH | k IH | g k IH | cb ms k IH | req k IH | resp k IH];
    simpl; intros Hw Hn w Ht.
  - exists (inr a), w. auto.
  - exists (inl e), w. auto.
  - destruct (IH Hw Hn (mkWorld (state w) (console w ++ [l]) (requests w) (timers w)) Ht)
      as (r & w' & H1 & H2 & H3 & H4).
    exists r, w'. auto.
  - apply (IH (state w) (Hw (state w)) (Hn (state w)) w Ht).
  - destruct Hw as [Hg Hw].
    destruct (IH Hw Hn (mkWorld (g (state w)) (console w) (requests w) (timers w)) Ht)
      as (r & w' & H1 & H2 & H3 & H4).
    exists r, w'. repeat split; auto. simpl in H2. eapply R_trans; [apply Hg | exact H2].
  - destruct Hw as [Hcb Hw].
    assert (Ht' : Forall (fun t => forall s, R s (snd t s)) (timers w ++ [(ms, cb)])).
    { apply Forall_app. split; [assumption | now constructor]. }
    destruct (IH Hw Hn (mkWorld (state w) (console w) (requests w)
                                (timers w ++ [(ms, cb)])) Ht')
      as (r & w' & H1 & H2 & H3 & H4).
    exists r, w'. auto.
  - contradiction.
  - contradiction.
Qed.

End QuietHandlers.

Section FormTraces.
Import FormEvents.

Variable JSON_stringify : string -> list QuestionResponse.t -> string.
Variable data : TypeForm.t.
Variable submitUrl : string.
Variable VITE_PUBLIC_SEC : string.


Lemma quiet_refl (s : FormView.State) : quiet s s.
Proof. split; reflexivity. Qed.

Lemma quiet_trans (s1 s2 s3 : FormView.State) : quiet s1 s2 -> quiet s2 s3 -> quiet s1 s3.
Proof. intros [H1 H2] [H3 H4]. split; congruence. Qed.

(** What one event does to a system whose pending handlers are quiet. *)
Lemma form_step (sys : System FormView.State) (e : FormEvent) :
  Frame.tidy quiet sys ->
  Frame.tidy quiet (step sys (eventOf JSON_stringify data submitUrl VITE_PUBLIC_SEC e)) /\
  FormView.values (state (world (step sys (eventOf JSON_stringify data submitUrl
      VITE_PUBLIC_SEC e))))
    = storeAfter [e] (FormView.values (state (world sys))) /\
  FormView.whenLoading (state (world (step sys (eventOf JSON_stringify data submitUrl
      VITE_PUBLIC_SEC e))))
    = (FormView.whenLoading (state (world sys)) || isSubmit e) /\
  requests (world (step sys (eventOf JSON_stringify data submitUrl VITE_PUBLIC_SEC e)))
    = (requests (world sys) ++ submitted JSON_stringify data submitUrl VITE_PUBLIC_SEC [e]
        (FormView.values (state (world sys))))%list.
Proof.
  intros [Hw Ht]. destruct e as [id value | | | r | ].
  - (* Update *)
    simpl. unfold enter. simpl. repeat split; auto.
    + now rewrite orb_false_r.
    + now rewrite app_nil_r.
  - (* Submit *)
    simpl. unfold enter. simpl. repeat split; auto.
    + simpl. apply Forall_app. split; [assumption|].
      constructor; [|constructor]. intros [e | resp]; simpl; repeat split.
    + symmetry. apply orb_true_r.
  - (* SubmitF *)
    simpl. unfold enter. simpl. repeat split; auto.
    + simpl. apply Forall_app. split; [assumption|].
      constructor; [|constructor]. intros [e | resp]; simpl; repeat split.
    + symmetry. apply orb_true_r.
  - (* Settled *)
    simpl. destruct (waiting sys) as [|k rest] eqn:Ek.
    + repeat split; auto.
      * now rewrite Ek.
      * now rewrite orb_false_r.
      * now rewrite app_nil_r.
    + inversion Hw as [|? ? Hk Hrest]; subst.
      destruct (Hk r) as [Hk1 Hk2].
      destruct (start_quiet quiet quiet_refl quiet_trans (k r) Hk1 Hk2 (world sys) Ht)
        as (res & w' & Hs & [Hv Hl] & Hreq & Ht').
      unfold enter. rewrite Hs. simpl. repeat split; auto.
      * now rewrite Hl, orb_false_r.
      * now rewrite Hreq, app_nil_r.
  - (* Timer *)
    simpl. destruct (timers (world sys)) as [|[ms cb] rest] eqn:Et.
    + repeat split; auto.
      * now rewrite Et.
      * now rewrite orb_false_r.
      * now rewrite app_nil_r.
    + inversion Ht as [|? ? Hcb Hrest]; subst.
      destruct (Hcb (state (world sys))) as [Hv Hl]. simpl in Hv, Hl.
      simpl. repeat split; auto.
      * now rewrite Hl, orb_false_r.
      * now rewrite app_nil_r.
Qed.

Lemma storeAfter_cons (e : FormEvent) (evs : list FormEvent)
  (vs : list QuestionResponse.t) :
  storeAfter (e :: evs) vs = storeAfter evs (storeAfter [e] vs).
Proof. destruct e; reflexivity. Qed.

Lemma submitted_cons (e : FormEvent) (evs : list FormEvent)
  (vs : list QuestionResponse.t) :
  submitted JSON_stringify data submitUrl VITE_PUBLIC_SEC (e :: evs) vs = (submitted
      JSON_stringify data submitUrl VITE_PUBLIC_SEC [e] vs ++ submitted JSON_stringify data
      submitUrl VITE_PUBLIC_SEC evs (storeAfter [e] vs))%list.
Proof. destruct e; reflexivity. Qed.

Lemma form_play (evs : list FormEvent) :
  forall sys, Frame.tidy quiet sys ->
    FormView.values (state (world (play JSON_stringify data submitUrl VITE_PUBLIC_SEC sys evs)))
      = storeAfter evs (FormView.values (state (world sys))) /\
    FormView.whenLoading (state (world (play JSON_stringify data submitUrl VITE_PUBLIC_SEC sys
        evs)))
      = (FormView.whenLoading (state (world sys)) || existsb isSubmit evs) /\
    requests (world (play JSON_stringify data submitUrl VITE_PUBLIC_SEC sys evs))
      = (requests (world sys) ++ submitted JSON_stringify data submitUrl VITE_PUBLIC_SEC evs
          (FormView.values (state (world sys))))%list.
Proof.
  induction evs as [|e evs IH]; intros sys Hs.
  - simpl. repeat split.
    + now rewrite orb_false_r.
    + now rewrite app_nil_r.
  - destruct (form_step sys e Hs) as (Hs' & Hv & Hl & Hr).
    destruct (IH _ Hs') as (Hv' & Hl' & Hr').
    change (play JSON_stringify data submitUrl VITE_PUBLIC_SEC sys (e :: evs)) with (play
        JSON_stringify data submitUrl VITE_PUBLIC_SEC (step sys (eventOf JSON_stringify data
        submitUrl VITE_PUBLIC_SEC e)) evs).
    rewrite Hv', Hl', Hr', Hv, Hl, Hr, (storeAfter_cons e evs), (submitted_cons e evs).
    split; [reflexivity | split].
    + simpl. now rewrite orb_assoc.
    + now rewrite app_assoc.
Qed.

Lemma mounted_tidy : Frame.tidy quiet (mounted data).
Proof. split; constructor. Qed.

Lemma storeAfter_ids (evs : list FormEvent) :
  forall vs, map QuestionResponse.questionId (storeAfter evs vs)
             = map QuestionResponse.questionId vs.
Proof.
  induction evs as [|e evs IH]; intros vs; [reflexivity|].
  destruct e as [id value | | | r | ]; simpl; rewrite IH; try reflexivity.
  unfold updated. rewrite updateStore_values. simpl.
  rewrite map_map. apply map_ext. intros v.
  now destruct (String.eqb (QuestionResponse.questionId v) id).
Qed.

Lemma submitted_length (evs : list FormEvent) :
  forall vs, length (submitted JSON_stringify data submitUrl VITE_PUBLIC_SEC evs vs) = length
      (filter isSubmit evs).
Proof.
  induction evs as [|e evs IH]; intros vs; [reflexivity|].
  destruct e; simpl; now rewrite IH.
Qed.

End FormTraces.

(** X12.  From the creation of a form view, through any series of updates,
    clicks on either submit button, settled requests and fired timers, the
    store changes by the updates alone: it holds what the updates of the
    series, in their order, make of the initial store; submitting, the rest
    of a submit handler and the timers never write to it.  Its question
    ids stay those of the questions, in their order. *)
Theorem store_changes_by_updates_only
  (JSON_stringify : string -> list QuestionResponse.t -> string)
  (data : TypeForm.t) (submitUrl VITE_PUBLIC_SEC : string)
  (evs : list FormEvents.FormEvent) :
  let sys := FormEvents.play JSON_stringify data submitUrl VITE_PUBLIC_SEC
               (FormEvents.mounted data) evs in
  FormView.values (state (world sys))
    = FormEvents.storeAfter evs (FormView.initialiseStore (TypeForm.questions data)) /\
  map QuestionResponse.questionId (FormView.values (state (world sys)))
    = map Question.id (TypeForm.questions data).
Proof.
  intros sys. unfold sys.
  destruct (form_play JSON_stringify data submitUrl VITE_PUBLIC_SEC evs
              (FormEvents.mounted data) (mounted_tidy data)) as (Hv & _ & _).
  split; [exact Hv|].
  rewrite Hv, storeAfter_ids. simpl. unfold FormView.initialiseStore.
  now rewrite map_map.
Qed.

(** X13.  The loading flag of a form view is set by the first click on a
    submit button and never reset: after any series of events it is set
    exactly when the series holds a click on a submit button, so once set
    it stays set whatever follows, a failed request included. *)
Theorem loading_flag_never_reset
  (JSON_stringify : string -> list QuestionResponse.t -> string)
  (data : TypeForm.t) (submitUrl VITE_PUBLIC_SEC : string)
  (evs more : list FormEvents.FormEvent) :
  let after := fun l =>
    FormView.whenLoading (state (world
      (FormEvents.play JSON_stringify data submitUrl VITE_PUBLIC_SEC
         (FormEvents.mounted data) l))) in
  after evs = existsb FormEvents.isSubmit evs /\
  (after evs = true -> after (evs ++ more)%list = true).
Proof.
  intros after. unfold after.
  assert (H : forall l,
    FormView.whenLoading (state (world
      (FormEvents.play JSON_stringify data submitUrl VITE_PUBLIC_SEC
         (FormEvents.mounted data) l))) = existsb FormEvents.isSubmit l).
  { intros l.
    destruct (form_play JSON_stringify data submitUrl VITE_PUBLIC_SEC l
                (FormEvents.mounted data) (mounted_tidy data)) as (_ & Hl & _).
    exact Hl. }
  split; [apply H|]. rewrite !H, existsb_app. intros ->. reflexivity.
Qed.

Lemma loading_flag_never_reset_witness :
  FormView.whenLoading (state (world
    (FormEvents.play Sample.stringify Sample.openForm "submit" "key"
       (FormEvents.mounted Sample.openForm)
       ([FormEvents.Update "q1" "x"; FormEvents.Submit]
        ++ [FormEvents.Settled (inl "offline"); FormEvents.Update "q1" "y"])%list)))
  = true.
Proof.
  apply (proj2 (loading_flag_never_reset Sample.stringify Sample.openForm "submit" "key"
                  [FormEvents.Update "q1" "x"; FormEvents.Submit]
                  [FormEvents.Settled (inl "offline"); FormEvents.Update "q1" "y"])).
  reflexivity.
Defined.

(** X14.  Nothing holds back a second submission: every click on a submit
    button, also while an earlier request is pending, hands one more
    request to [fetch], and nothing else ever does.  After any series of
    events the requests made are, in order, one per click on a submit
    button, each serialising the store as the updates before that click
    left it. *)
Theorem one_request_per_submit_click
  (JSON_stringify : string -> list QuestionResponse.t -> string)
  (data : TypeForm.t) (submitUrl VITE_PUBLIC_SEC : string)
  (evs : list FormEvents.FormEvent) :
  let sys := FormEvents.play JSON_stringify data submitUrl VITE_PUBLIC_SEC
               (FormEvents.mounted data) evs in
  requests (world sys)
    = FormEvents.submitted JSON_stringify data submitUrl VITE_PUBLIC_SEC evs
        (FormView.initialiseStore (TypeForm.questions data)) /\
  length (requests (world sys)) = length (filter FormEvents.isSubmit evs).
Proof.
  intros sys. unfold sys.
  destruct (form_play JSON_stringify data submitUrl VITE_PUBLIC_SEC evs
              (FormEvents.mounted data) (mounted_tidy data)) as (_ & _ & Hr).
  simpl in Hr. split; [exact Hr|]. rewrite Hr. apply submitted_length.
Qed.

(** Two clicks on the submit button in a row make two requests. *)
Example double_submit :
  map body (requests (world
    (FormEvents.play Sample.stringify Sample.openForm "submit" "key"
       (FormEvents.mounted Sample.openForm)
       [FormEvents.Update "q1" "x"; FormEvents.SubmitF;
        FormEvents.Update "q1" "y"; FormEvents.SubmitF])))
  = [Some "f:x"; Some "f:y"].
Proof. reflexivity. Qed.

(** ** The store follows the controls *)
Section FormSync.
Import Form.

Lemma updateAt_length {A : Type} (i : nat) (x : A) (l : list A) :
  length (updateAt i x l) = length l.
Proof.
  revert i. induction l as [|y l IH]; intros [|i]; simpl; auto.
Qed.

Lemma skipn_all_app {A : Type} (l extra : list A) :
  skipn (length l) (l ++ extra) = extra.
Proof. induction l as [|y l IH]; simpl; auto. Qed.

Lemma entries_ids (qs : list Question.t) (cs : list Control) (x : string) :
  In x (map QuestionResponse.questionId (map entryOf (combine qs cs))) ->
  In x (map Question.id qs).
Proof.
  revert cs. induction qs as [|q qs IH]; intros [|c cs]; simpl; try tauto.
  intros [H | H]; [now left | right; now apply (IH cs)].
Qed.

(** With pairwise different question ids, an update under the id of the
    question at place [i] rewrites the entry at place [i] and no other. *)
Lemma entries_update (qs : list Question.t) :
  NoDup (map Question.id qs) ->
  forall (cs : list Control) (i : nat) (q : Question.t) (c' : Control) (x : string),
    nth_error qs i = Some q -> (i < length cs)%nat -> content c' = x ->
    map (fun v => if String.eqb (QuestionResponse.questionId v) (Question.id q)
                  then QuestionResponse.mk (QuestionResponse.id v)
                         (QuestionResponse.questionId v) x
                  else v)
        (map entryOf (combine qs cs))
    = map entryOf (combine qs (updateAt i c' cs)).
Proof.
  induction qs as [|q0 qs IH]; intros Hnd cs i q c' x Hq Hi <-.
  - destruct i; discriminate Hq.
  - inversion Hnd as [|? ? Hnotin Hnd']; subst.
    destruct cs as [|c0 cs]; [simpl in Hi; lia|].
    destruct i as [|i]; simpl in Hq.
    + injection Hq as ->. simpl. rewrite String.eqb_refl. f_equal.
      apply updateStore_absent. intros H. apply Hnotin.
      now apply (entries_ids qs cs).
    + simpl. assert (Hne : String.eqb (Question.id q0) (Question.id q) = false).
      { apply String.eqb_neq. intros E. apply Hnotin. rewrite E.
        apply in_map. now apply nth_error_In with i. }
      rewrite Hne. f_equal. apply IH; auto. simpl in Hi. lia.
Qed.

Lemma entries_same_content (qs : list Question.t) (cs : list Control)
  (i : nat) (c c' : Control) :
  nth_error cs i = Some c -> content c' = content c ->
  map entryOf (combine qs (updateAt i c' cs)) = map entryOf (combine qs cs).
Proof.
  revert cs i. induction qs as [|q qs IH]; intros [|c0 cs] [|i] Hc He;
    simpl in *; try reflexivity; try discriminate Hc.
  - injection Hc as ->. unfold entryOf. simpl. now rewrite He.
  - f_equal. now apply IH.
Qed.

Lemma wired_updateAt (qs : list Question.t) (cs : list Control)
  (i : nat) (q : Question.t) (c' : Control) :
  Forall2 wired qs cs -> nth_error qs i = Some q -> wired q c' ->
  Forall2 wired qs (updateAt i c' cs).
Proof.
  intros H. revert i. induction H as [|q0 c0 qs cs Hw H IH]; intros [|i] Hq Hc';
    simpl in *; try discriminate Hq.
  - injection Hq as ->. now constructor.
  - constructor; [assumption | now apply IH].
Qed.

Lemma wired_nth (qs : list Question.t) (cs : list Control) (i : nat) (c : Control) :
  Forall2 wired qs cs -> nth_error cs i = Some c ->
  exists q, nth_error qs i = Some q /\ wired q c.
Proof.
  intros H. revert i. induction H as [|q0 c0 qs cs Hw H IH]; intros [|i] Hc;
    simpl in *; try discriminate Hc.
  - injection Hc as ->. now exists q0.
  - now apply IH.
Qed.

Lemma pushCalls_one (a v : string) (f : FormView.State) :
  pushCalls [(a, v)] f = FormView.updateStore a v f.
Proof. reflexivity. Qed.

Lemma short_calls (p : KMShortPromptView.Props) (text : string)
  (st : KMShortPromptView.State) :
  newCalls (KMShortPromptView.storeUpdates st)
           (KMShortPromptView.storeUpdates (KMShortPromptView.onValueChange p text st))
  = [(KMShortPromptView.id p, text)].
Proof. unfold newCalls. simpl. apply skipn_all_app. Qed.

Lemma long_calls (p : KMLongPromptView.Props) (text : string)
  (st : KMLongPromptView.State) :
  newCalls (KMLongPromptView.storeUpdates st)
           (KMLongPromptView.storeUpdates (KMLongPromptView.onValueChange p text st))
  = [(KMLongPromptView.id p, text)].
Proof. unfold newCalls. simpl. apply skipn_all_app. Qed.

(** What links the controls of a form and its store. *)
Lemma step_in_sync (qs : list Question.t) (s : State) (ev : UiEvent) :
  NoDup (map Question.id qs) ->
  Forall2 wired qs (controls s) ->
  FormView.values (form s) = map entryOf (combine qs (controls s)) ->
  Forall2 wired qs (controls (step s ev)) /\
  FormView.values (form (step s ev)) = map entryOf (combine qs (controls (step s ev))).
Proof.
  intros Hnd Hw Hv.
  assert (Hlt : forall i c, nth_error (controls s) i = Some c ->
                            (i < length (controls s))%nat).
  { intros i c H. apply nth_error_Some. congruence. }
  destruct ev as [i a | i text]; unfold step.
  - destruct (nth_error (controls s) i) as [[p st | p st | p st | ]|] eqn:Ec; auto.
    destruct (KMChoicePromptView.hasButton p a); auto.
    destruct (wired_nth qs _ i _ Hw Ec) as (q & Hq & Ht & Hid & Hset).
    destruct (click_step p a st Hset) as (Hsel & Hset' & Hu).
    cbn [controls form]. split.
    + apply (wired_updateAt qs _ i q); auto. simpl. auto.
    + rewrite Hu. unfold newCalls. rewrite skipn_all_app.
      destruct (String.eqb _ (KMChoicePromptView.selectedState st)) eqn:E.
      * apply String.eqb_eq in E. simpl. rewrite Hv. symmetry.
        apply entries_same_content with (c := ChoiceView p st); auto.
        simpl. now rewrite Hsel.
      * rewrite pushCalls_one, updateStore_values, Hv, Hid.
        apply (entries_update qs Hnd (controls s) i q
                 (ChoiceView p (KMChoicePromptView.click p a st)) _ Hq (Hlt _ _ Ec)).
        exact Hsel.
  - destruct (nth_error (controls s) i) as [[p st | p st | p st | ]|] eqn:Ec; auto.
    + destruct (wired_nth qs _ i _ Hw Ec) as (q & Hq & Ht & Hid).
      cbn [controls form]. split.
      * apply (wired_updateAt qs _ i q); auto. simpl. auto.
      * rewrite short_calls, pushCalls_one, updateStore_values, Hv, Hid.
        apply (entries_update qs Hnd (controls s) i q _ _ Hq (Hlt _ _ Ec)).
        simpl. rewrite map_app. simpl. apply last_last.
    + destruct (wired_nth qs _ i _ Hw Ec) as (q & Hq & Ht & Hid).
      cbn [controls form]. split.
      * apply (wired_updateAt qs _ i q); auto. simpl. auto.
      * rewrite long_calls, pushCalls_one, updateStore_values, Hv, Hid.
        apply (entries_update qs Hnd (controls s) i q _ _ Hq (Hlt _ _ Ec)).
        simpl. rewrite map_app. simpl. apply last_last.
Qed.

Lemma render_wired (q : Question.t) : wired q (render q) /\ content (render q) = "".
Proof.
  unfold render. destruct (Question.type q) eqn:E; simpl; rewrite ?E;
    repeat split; auto; constructor.
Qed.

Lemma mount_in_sync (qs : list Question.t) :
  Forall2 wired qs (map render qs) /\
  FormView.initialiseStore qs = map entryOf (combine qs (map render qs)).
Proof.
  induction qs as [|q qs [IH1 IH2]]; simpl; [split; [constructor | reflexivity]|].
  destruct (render_wired q) as [Hw Hc]. split.
  - now constructor.
  - unfold entryOf at 1. simpl. rewrite Hc. f_equal. exact IH2.
Qed.

Lemma steps_in_sync (qs : list Question.t) (evs : list UiEvent) :
  NoDup (map Question.id qs) ->
  forall s, Forall2 wired qs (controls s) ->
    FormView.values (form s) = map entryOf (combine qs (controls s)) ->
    Forall2 wired qs (controls (steps s evs)) /\
    FormView.values (form (steps s evs))
      = map entryOf (combine qs (controls (steps s evs))).
Proof.
  intros Hnd. unfold steps. induction evs as [|ev evs IH]; intros s Hw Hv; simpl.
  - now split.
  - destruct (step_in_sync qs s ev Hnd Hw Hv) as [Hw' Hv']. now apply IH.
Qed.

Lemma nth_entries (qs : list Question.t) (cs : list Control) (i : nat)
  (q : Question.t) (c : Control) :
  nth_error qs i = Some q -> nth_error cs i = Some c ->
  nth_error (map entryOf (combine qs cs)) i = Some (entryOf (q, c)).
Proof.
  revert cs i. induction qs as [|q0 qs IH]; intros [|c0 cs] [|i] Hq Hc;
    simpl in *; try discriminate.
  - injection Hq as ->. injection Hc as ->. reflexivity.
  - now apply IH.
Qed.

End FormSync.

(** X15.  In a form whose question ids are pairwise different, after any
    series of clicks on option buttons and keystrokes in text fields since
    the form was rendered, the store shows, question by question and in the
    order of the questions, what the control of that question holds: the
    selection of a choice prompt, the text last typed into a text prompt.
    A question of a type with images has no control, and its entry keeps
    the empty string. *)
Theorem store_follows_controls (data : TypeForm.t) (evs : list Form.UiEvent) :
  NoDup (map Question.id (TypeForm.questions data)) ->
  let s := Form.steps (Form.mount data) evs in
  length (Form.controls s) = length (TypeForm.questions data) /\
  length (FormView.values (Form.form s)) = length (TypeForm.questions data) /\
  (forall i q c,
     nth_error (TypeForm.questions data) i = Some q ->
     nth_error (Form.controls s) i = Some c ->
     nth_error (FormView.values (Form.form s)) i
       = Some (QuestionResponse.mk None (Question.id q) (Form.content c))) /\
  (forall i q,
     nth_error (TypeForm.questions data) i = Some q ->
     Question.type q = singleWithImage \/ Question.type q = multiWithImage ->
     nth_error (Form.controls s) i = Some Form.NoView /\
     nth_error (FormView.values (Form.form s)) i
       = Some (QuestionResponse.mk None (Question.id q) "")).
Proof.
  intros Hnd s.
  destruct (mount_in_sync (TypeForm.questions data)) as [Hw0 Hv0].
  destruct (steps_in_sync (TypeForm.questions data) evs Hnd (Form.mount data) Hw0 Hv0)
    as [Hw Hv].
  fold s in Hw, Hv.
  assert (Hlen : length (Form.controls s) = length (TypeForm.questions data)).
  { symmetry. now apply Forall2_length with (R := Form.wired). }
  assert (Hnth : forall i q c,
     nth_error (TypeForm.questions data) i = Some q ->
     nth_error (Form.controls s) i = Some c ->
     nth_error (FormView.values (Form.form s)) i
       = Some (QuestionResponse.mk None (Question.id q) (Form.content c))).
  { intros i q c Hq Hc. rewrite Hv. now apply nth_entries. }
  split; [exact Hlen | split; [|split; [exact Hnth|]]].
  - rewrite Hv, length_map, length_combine, Hlen. apply Nat.min_id.
  - intros i q Hq Ht.
    destruct (nth_error (Form.controls s) i) as [c|] eqn:Ec.
    + destruct (wired_nth _ _ i c Hw Ec) as (q' & Hq' & Hwc).
      rewrite Hq in Hq'. injection Hq' as <-.
      destruct c as [p st | p st | p st | ]; simpl in Hwc.
      * destruct Hwc as ([H | H] & _); destruct Ht as [Ht | Ht]; congruence.
      * destruct Hwc as (H & _); destruct Ht as [Ht | Ht]; congruence.
      * destruct Hwc as (H & _); destruct Ht as [Ht | Ht]; congruence.
      * split; [reflexivity|]. now apply (Hnth i q Form.NoView).
    + exfalso. apply nth_error_None in Ec.
      assert (i < length (TypeForm.questions data))%nat
        by (apply nth_error_Some; congruence).
      lia.
Qed.

Lemma store_follows_controls_witness :
  nth_error
    (FormView.values (Form.form
       (Form.steps (Form.mount SampleForm.data)
          [Form.Click 0 "0"; Form.KeyUp 1 "hi"; Form.Click 2 "0"; Form.Click 0 "1"])))
    2
  = Some (QuestionResponse.mk None "q3" "").
Proof.
  assert (Hnd : NoDup (map Question.id (TypeForm.questions SampleForm.data))).
  { repeat constructor; simpl; intros H;
      repeat (destruct H as [H | H]; [discriminate H|]); exact H. }
  destruct (store_follows_controls SampleForm.data
              [Form.Click 0 "0"; Form.KeyUp 1 "hi"; Form.Click 2 "0"; Form.Click 0 "1"]
              Hnd) as (_ & _ & _ & H).
  exact (proj2 (H 2%nat _ eq_refl (or_intror eq_refl))).
Defined.

(** The store after that series of events. *)
Example store_follows_controls_sample :
  map QuestionResponse.value
    (FormView.values (Form.form
       (Form.steps (Form.mount SampleForm.data)
          [Form.Click 0 "0"; Form.KeyUp 1 "hi"; Form.Click 2 "0"; Form.Click 0 "1"])))
  = ["01"; "hi"; ""].
Proof. reflexivity. Qed.

(** When two questions share an id, a keystroke in the one overwrites the
    entry of the other as well. *)
Example shared_id_breaks_sync :
  map QuestionResponse.value
    (FormView.values (Form.form
       (Form.steps (Form.mount SampleForm.twins) [Form.Click 1 "0"; Form.KeyUp 0 "hi"])))
  = ["hi"; "hi"] /\
  map Form.content
    (Form.controls
       (Form.steps (Form.mount SampleForm.twins) [Form.Click 1 "0"; Form.KeyUp 0 "hi"]))
  = ["hi"; "0"].
Proof. split; reflexivity. Qed.
